(** * AI-Literature-Review-Generator: a shallow embedding of [main.py]

    The development follows the layout of the program: the Python string
    primitives the program relies on, the [tenacity] retry decorator, then
    the functions of [main.py] in source order, and finally the properties
    proved about them. *)

From Stdlib Require Import List NArith ZArith Lia Bool Ascii Permutation.
From Stdlib Require String DecimalString.
Import ListNotations.
Import String.StringSyntax.
Delimit Scope string_scope with string.

(** ** Python values *)

Module Py.

(** A Python [str] is a sequence of Unicode code points. *)
Definition char := N.
Definition str := list char.

(** [u "abc"] is the [str] spelled by an ASCII literal. *)
Definition u (s : String.string) : str :=
  map N_of_ascii (String.list_ascii_of_string s).
Arguments u s%_string.

(** [a == b] *)
Fixpoint str_eqb (a b : str) : bool :=
  match a, b with
  | [], [] => true
  | x :: a', y :: b' => (x =? y)%N && str_eqb a' b'
  | _, _ => false
  end.

(** [x in [s1, ..., sn]] for strings. *)
Definition str_in (x : str) (l : list str) : bool := existsb (str_eqb x) l.

(** [ord(c) < 128]. *)
Definition isascii_char (c : char) : bool := (c <? 128)%N.
Definition isascii (s : str) : bool := forallb isascii_char s.

(** [str.isspace] on one character, which is also the class [\s] of [re] on
    [str] patterns (CPython's [_PyUnicode_IsWhitespace]). *)
Definition isspace (c : char) : bool :=
  ((0x9 <=? c) && (c <=? 0xD) || (0x1C <=? c) && (c <=? 0x20)
   || (c =? 0x85) || (c =? 0xA0) || (c =? 0x1680)
   || (0x2000 <=? c) && (c <=? 0x200A)
   || (c =? 0x2028) || (c =? 0x2029) || (c =? 0x202F) || (c =? 0x205F)
   || (c =? 0x3000))%N.

Definition SPACE : char := 32%N.
Definition PERIOD : char := 46%N.
Definition NEWLINE : char := 10%N.

(** *** Exceptions *)

(** The exceptions that reach the program, all instances of [Exception].
    Asynchronous interrupts ([KeyboardInterrupt], [SystemExit]), which are
    not, stay outside the model. *)
Inductive exn : Type :=
| IndexError
| ValueError
| FileNotFoundError
| CollaboratorError (code : N)   (* raised by PyPDF2, openai, pydantic or the OS *)
| RetryError (last_attempt : exn). (* tenacity.RetryError, wrapping the last outcome *)

Inductive result (A : Type) : Type :=
| Return (a : A)
| Raise (e : exn).
Arguments Return {A} a.
Arguments Raise {A} e.

Definition bind {A B} (m : result A) (k : A -> result B) : result B :=
  match m with
  | Return a => k a
  | Raise e => Raise e
  end.

Declare Scope result_scope.
Delimit Scope result_scope with result.
Notation "x <- m ;; k" := (bind m (fun x => k))
  (at level 61, m at next level, right associativity) : result_scope.

(** Evaluating [f] on each element in order; the first exception ends the
    iteration. *)
Fixpoint map_result {A B} (f : A -> result B) (l : list A) : result (list B) :=
  match l with
  | [] => Return []
  | a :: rest =>
      (b <- f a ;; bs <- map_result f rest ;; Return (b :: bs))%result
  end.

(** *** Sequences *)

(** [l[i]] with Python's negative indices; [IndexError] out of range. *)
Definition index {A} (l : list A) (i : Z) : result A :=
  let n := Z.of_nat (length l) in
  let j := (if i <? 0 then i + n else i)%Z in
  if ((j <? 0) || (n <=? j))%Z then Raise IndexError
  else match nth_error l (Z.to_nat j) with
       | Some a => Return a
       | None => Raise IndexError
       end.

(** Slice bounds are clamped to [0, len], never raising. *)
Definition clamp (len : nat) (i : Z) : nat :=
  let n := Z.of_nat len in
  let j := (if i <? 0 then i + n else i)%Z in
  Z.to_nat (Z.max 0 (Z.min n j)).

(** [l[i:]] *)
Definition slice_from {A} (l : list A) (i : Z) : list A :=
  skipn (clamp (length l) i) l.

(** [l[:i]] *)
Definition slice_to {A} (l : list A) (i : Z) : list A :=
  firstn (clamp (length l) i) l.

(** [enumerate(l)] *)
Definition enumerate {A} (l : list A) : list (nat * A) :=
  combine (seq 0 (length l)) l.

(** *** String methods *)

(** [sep.join(parts)] *)
Fixpoint join (sep : str) (parts : list str) : str :=
  match parts with
  | [] => []
  | [p] => p
  | p :: rest => p ++ sep ++ join sep rest
  end.

(** [s.split()]: maximal runs of non-whitespace characters; [word] is the
    run currently being read. *)
Fixpoint split_from (word : str) (s : str) : list str :=
  match s with
  | [] => match word with [] => [] | _ => [word] end
  | c :: rest =>
      if isspace c
      then match word with
           | [] => split_from [] rest
           | _ => word :: split_from [] rest
           end
      else split_from (word ++ [c]) rest
  end.

Definition split (s : str) : list str := split_from [] s.

Fixpoint lstrip (s : str) : str :=
  match s with
  | c :: rest => if isspace c then lstrip rest else s
  | [] => []
  end.

Definition rstrip (s : str) : str := rev (lstrip (rev s)).

(** [s.strip()] *)
Definition strip (s : str) : str := rstrip (lstrip s).

(** [s.endswith(suffix)] *)
Definition endswith (s suffix : str) : bool :=
  (length suffix <=? length s)%nat
  && str_eqb (skipn (length s - length suffix) s) suffix.

(** [re.sub(r'\s+', ' ', s)]: scanning left to right, every maximal run of
    whitespace is replaced by one space; [in_run] tells whether the previous
    character belonged to the run being replaced. *)
Fixpoint re_sub_spaces_from (in_run : bool) (s : str) : str :=
  match s with
  | [] => []
  | c :: rest =>
      if isspace c
      then if in_run then re_sub_spaces_from true rest
           else SPACE :: re_sub_spaces_from true rest
      else c :: re_sub_spaces_from false rest
  end.

Definition re_sub_spaces (s : str) : str := re_sub_spaces_from false s.

(** [s.encode('ASCII', 'ignore').decode('ASCII')]: characters outside
    ASCII are dropped. *)
Definition encode_ascii_ignore (s : str) : str := filter isascii_char s.

(** Case conversion of an ASCII character. *)
Definition ascii_lower_char (c : char) : char :=
  if ((65 <=? c) && (c <=? 90))%N then (c + 32)%N else c.
Definition ascii_upper_char (c : char) : char :=
  if ((97 <=? c) && (c <=? 122))%N then (c - 32)%N else c.

(** The Unicode tables of the interpreter, which the program reaches
    through [unicodedata.normalize('NFKD', _)] and the case methods of
    [str]: compatibility decomposition, and case conversion of strings that
    are not pure ASCII.  On pure ASCII strings the case methods convert the
    letters A-Z and a-z and nothing else, which is written out below.
    With them comes the interpreter's limit on the number of digits of an
    integer converted to a string ([sys.get_int_max_str_digits()]): 4300
    by default since CPython 3.11, 0 when there is none. *)
Record Unicode : Type := {
  nfkd : str -> str;
  unicode_lower : str -> str;
  unicode_upper : str -> str;
  unicode_capitalize : str -> str;
  int_max_str_digits : N
}.

Section CaseMethods.
Variable U : Unicode.

(** [s.lower()] *)
Definition lower (s : str) : str :=
  if isascii s then map ascii_lower_char s else unicode_lower U s.

(** [s.upper()] *)
Definition upper (s : str) : str :=
  if isascii s then map ascii_upper_char s else unicode_upper U s.

(** [s.capitalize()]: first character upper-cased, the rest
    lower-cased. *)
Definition capitalize (s : str) : str :=
  if isascii s
  then match s with
       | [] => []
       | c :: rest => ascii_upper_char c :: map ascii_lower_char rest
       end
  else unicode_capitalize U s.
End CaseMethods.

(** The decimal numeral of an integer, with a minus sign when negative. *)
Definition decimal (n : Z) : str :=
  u (DecimalString.NilZero.string_of_int (Z.to_int n)).

(** The test CPython makes before it converts an [int] to a string: the
    conversion is refused when a limit is set and the integer has more
    decimal digits than the limit, that is when its absolute value is at
    least 10 to the power of the limit.  Integers of at most 640 digits
    are never refused (no smaller limit can be set). *)
Definition exceeds_max_str_digits (U : Unicode) (n : Z) : bool :=
  (10 ^ 640 <=? Z.abs n)%Z
  && (0 <? int_max_str_digits U)%N
  && (10 ^ Z.of_N (int_max_str_digits U) <=? Z.abs n)%Z.

(** [f"{n}"] for an [int]: its decimal numeral, or [ValueError] when the
    integer exceeds the limit. *)
Definition format_int (U : Unicode) (n : Z) : result str :=
  if exceeds_max_str_digits U n then Raise ValueError
  else Return (decimal n).

End Py.

Import Py.

(** ** The data model *)

Record PaperSummary : Type := {
  title : str;
  authors : list str;
  year : Z;
  research_question : str;
  theoretical_framework : str;
  methodology : str;
  main_arguments : list str;
  findings : str;
  significance : str;
  limitations : str;
  future_research : str
}.

(** ** [clean_text] *)

Section CleanText.
Variable U : Unicode.

Definition clean_text (text : str) : str :=
  let text := encode_ascii_ignore (nfkd U text) in
  let text := filter (fun char => (32 <=? char)%N) text in
  let text := re_sub_spaces text in
  strip text.
End CleanText.

(** ** The [tenacity] retry decorator *)

Module Tenacity.

(** What one decorated call does, in order. *)
Inductive event : Type :=
| DoAttempt (attempt_number : nat)
| DoSleep (attempt_number : nat).

(** [stop_after_attempt(n)]: stop once [attempt_number >= n]. *)
Definition stop_after_attempt (max_attempt_number attempt_number : nat) : bool :=
  (max_attempt_number <=? attempt_number)%nat.

(** The loop of [Retrying.__call__] with the default [retry] condition
    (any instance of [Exception], so any exception of the model) and
    [reraise=False]: run the function; a returned
    value ends the call; after an exception, either [stop] holds and a
    [RetryError] wrapping that outcome is raised, or the loop sleeps
    ([wait]) and starts the next attempt.  [fn n] is what the [n]-th run
    of the wrapped function does.  The Python loop is [while True]: the
    model takes [fuel] iterations and answers [None] when they run out. *)
Fixpoint call {A} (stop : nat -> bool) (fn : nat -> result A)
    (fuel attempt_number : nat) : option (result A * list event) :=
  match fuel with
  | O => None
  | S fuel' =>
      match fn attempt_number with
      | Return a => Some (Return a, [DoAttempt attempt_number])
      | Raise e =>
          if stop attempt_number
          then Some (Raise (RetryError e), [DoAttempt attempt_number])
          else
            match call stop fn fuel' (S attempt_number) with
            | Some (r, events) =>
                Some (r, DoAttempt attempt_number
                           :: DoSleep attempt_number :: events)
            | None => None
            end
      end
  end.

(** [@retry(stop=stop, wait=...)] applied to [fn]. *)
Definition retry {A} (stop : nat -> bool) (fn : nat -> result A)
    (fuel : nat) : option (result A * list event) :=
  call stop fn fuel 1.

(** Number of runs of the wrapped function in a trace. *)
Definition attempts (events : list event) : nat :=
  length (filter (fun ev => match ev with DoAttempt _ => true | _ => false end)
            events).

End Tenacity.

(** ** The collaborators *)

(** The two requests sent to the completion endpoint; the fixed parts of
    the prompts (instructions, model, token budget) are left out. *)
Inductive request : Type :=
| AnalysisPrompt (filename text : str)
| SynthesisPrompt (summaries : list PaperSummary).

(** How an operation on the output file ends: it returns, or it makes the
    [with] block end with an exception, the file then holding the first
    [stored] characters of all the text written to it. *)
Inductive io : Type :=
| Done
| Failed (e : exn) (stored : nat).

(** Everything outside the program: the interpreter's Unicode tables, the
    file system, PyPDF2, the completion endpoint, pydantic's parser, the
    clock and the thread pool. *)
Record World : Type := {
  unicode : Unicode;
  script_dir : str;
  isdir : str -> bool;
  listdir : str -> result (list str);
  (** the page texts PyPDF2 extracts from the file at a path *)
  pdf_pages : str -> result (list str);
  (** the content of the first choice of the reply to a request on its
      [n]-th attempt, or the exception raised on the way *)
  chat_completions_create : request -> nat -> result str;
  parse_raw : str -> result PaperSummary;
  (** the order in which the submitted futures complete *)
  as_completed : list (result PaperSummary) -> list (result PaperSummary);
  (** [datetime.now().strftime("%Y%m%d_%H%M%S")] *)
  now : str;
  open_w : str -> result unit;
  (** [f.write(text)] after [before] has been written: the file is
      buffered, so a write that returns may have stored nothing yet *)
  file_write : str -> str -> io;
  (** the close at the end of the [with] block, which flushes the buffer,
      after [text] has been written *)
  file_close : str -> io
}.

(** ** [extract_text_from_pdf], [analyze_pdf], [process_pdf] *)

(** [os.path.basename] and [os.path.join] on POSIX paths. *)
Fixpoint basename_from (name : str) (path : str) : str :=
  match path with
  | [] => name
  | c :: rest =>
      if (c =? 47)%N then basename_from [] rest
      else basename_from (name ++ [c]) rest
  end.

Definition basename (path : str) : str := basename_from [] path.

Definition path_join (dir name : str) : str :=
  match name with
  | 47%N :: _ => name
  | _ => if endswith dir (u "/") || (length dir =? 0)%nat
         then dir ++ name else dir ++ u "/" ++ name
  end.

Section Analysis.
Variable W : World.

Definition extract_text_from_pdf (pdf_path : str) : result str :=
  match pdf_pages W pdf_path with
  | Return pages =>
      let text :=
        fold_left (fun text page => text ++ page ++ [NEWLINE]) pages [] in
      Return (clean_text (unicode W) text)
  | Raise e => Raise e
  end.

(** The body of [analyze_pdf]: one request, then the parse. *)
Definition analyze_pdf_body (text filename : str) (attempt : nat)
    : result PaperSummary :=
  (content <- chat_completions_create W
                (AnalysisPrompt filename (slice_to text 6000)) attempt ;;
   parse_raw W content)%result.

Definition analyze_pdf (fuel : nat) (text filename : str)
    : option (result PaperSummary * list Tenacity.event) :=
  Tenacity.retry (Tenacity.stop_after_attempt 3)
    (analyze_pdf_body text filename) fuel.

Definition process_pdf (fuel : nat) (file_path : str)
    : option (result PaperSummary) :=
  let filename := basename file_path in
  match extract_text_from_pdf file_path with
  | Return text => option_map fst (analyze_pdf fuel text filename)
  | Raise e => Some (Raise e)
  end.

(** The body of [synthesize_reviews]. *)
Definition synthesize_reviews_body (summaries : list PaperSummary)
    (attempt : nat) : result str :=
  chat_completions_create W (SynthesisPrompt summaries) attempt.

Definition synthesize_reviews (fuel : nat) (summaries : list PaperSummary)
    : option (result str * list Tenacity.event) :=
  Tenacity.retry (Tenacity.stop_after_attempt 3)
    (synthesize_reviews_body summaries) fuel.

End Analysis.

(** ** [create_apa_citation] and [create_paper_list] *)

Definition particles : list str := [u "van"; u "von"; u "de"; u "du"].

Definition stop_words : list str :=
  [u "a"; u "an"; u "the"; u "and"; u "but"; u "or"; u "for"; u "nor";
   u "on"; u "at"; u "to"; u "from"; u "by"; u "in"; u "of"].

Section Citation.
Variable U : Unicode.
Local Open Scope result_scope.

(** One iteration of the loop over [summary.authors]: the string appended
    to [formatted_authors]. *)
Definition format_author (author : str) : result str :=
  let parts := split author in
  if (1 <? length parts)%nat then
    particle <- index parts (-2) ;;
    last_name <-
      (if str_in (lower U particle) particles
       then Return (join (u " ") (slice_from parts (-2)))
       else index parts (-1)) ;;
    initials <-
      map_result
        (fun name => c <- index name 0 ;; Return (upper U [c] ++ u "."))
        (filter (fun name => negb (str_in (lower U name) particles))
           (slice_to parts (-1))) ;;
    Return (last_name ++ u ", " ++ join (u ". ") initials)
  else Return author.

(** The "Join authors" step. *)
Definition join_authors (formatted_authors : list str) : result str :=
  if (length formatted_authors =? 1)%nat then index formatted_authors 0
  else if (length formatted_authors =? 2)%nat then
    a <- index formatted_authors 0 ;;
    b <- index formatted_authors 1 ;;
    Return (a ++ u " & " ++ b)
  else if (2 <? length formatted_authors)%nat then
    z <- index formatted_authors (-1) ;;
    Return (join (u ", ") (slice_to formatted_authors (-1)) ++ u ", & " ++ z)
  else Return (u "Unknown").

(** The title-casing step: the list comprehension over
    [enumerate(title_words)], joined by spaces. *)
Definition title_case (title : str) : str :=
  let title_words := split title in
  join (u " ")
    (map (fun iw : nat * str =>
            let (i, word) := iw in
            if (i =? 0)%nat || negb (str_in (lower U word) stop_words)
            then capitalize U word
            else lower U word)
       (enumerate title_words)).

(** "Remove any trailing period from the title". *)
Definition remove_trailing_period (title : str) : str :=
  if endswith title (u ".") then slice_to title (-1) else title.

Definition create_apa_citation (summary : PaperSummary) : result str :=
  match authors summary with
  | [] =>
      year <- format_int U (year summary) ;;
      Return (u "Unknown. (" ++ year ++ u "). " ++ title summary ++ u ".")
  | _ =>
      formatted_authors <- map_result format_author (authors summary) ;;
      authors_string <- join_authors formatted_authors ;;
      let title := remove_trailing_period (title_case (title summary)) in
      year <- format_int U (year summary) ;;
      Return (authors_string ++ u " (" ++ year ++ u "). " ++ title ++ u ".")
  end.

Definition paper_list_heading : str :=
  u "## List of Reviewed Papers" ++ [NEWLINE; NEWLINE].

(** The line one summary adds to the list: its citation, or the
    placeholder of the [except] branch. *)
Definition paper_list_entry (summary : PaperSummary) : str :=
  match create_apa_citation summary with
  | Return citation => u "- " ++ citation ++ [NEWLINE]
  | Raise _ => u "- Error in citation: " ++ title summary ++ [NEWLINE]
  end.

Definition create_paper_list (summaries : list PaperSummary) : str :=
  fold_left (fun paper_list summary => paper_list ++ paper_list_entry summary)
    summaries paper_list_heading.

End Citation.

(** ** [find_pdf_folder] and [main] *)

(** How a run of [main] ends: the file is written and the completion is
    logged; the [return] after "No PDF files found"; the [return] after
    "No papers were successfully processed"; one of the two [except]
    clauses of [main]. *)
Inductive terminal : Type :=
| Completed
| FailedNoInput
| FailedNoOutput
| FailedUnexpected.

Record Run : Type := {
  state : terminal;
  (** the list [summaries] when the run ends *)
  collected : list PaperSummary;
  (** name and content of the output file, if it was created *)
  output_file : option (str * str)
}.

(** The test of the comprehension over [os.listdir(pdf_folder)]. *)
Definition is_pdf (f : str) : bool := endswith f (u ".pdf").

Section Main.
Variable W : World.

Definition find_pdf_folder : result str :=
  let pdf_folder := path_join (script_dir W) (u "PDF") in
  if isdir W pdf_folder then Return pdf_folder else Raise FileNotFoundError.

(** [executor.submit(process_pdf, ...)] for every file. *)
Fixpoint submit_all (fuel : nat) (paths : list str)
    : option (list (result PaperSummary)) :=
  match paths with
  | [] => Some []
  | path :: rest =>
      match process_pdf W fuel path, submit_all fuel rest with
      | Some future, Some futures => Some (future :: futures)
      | _, _ => None
      end
  end.

(** The loop over [as_completed(futures)]: a result is appended, an
    exception is logged and dropped. *)
Definition collect (completed : list (result PaperSummary))
    : list PaperSummary :=
  fold_left (fun summaries future =>
               match future with
               | Return summary => summaries ++ [summary]
               | Raise _ => summaries
               end)
    completed [].

(** The [with open(output_filename, 'w')] block: the file as it is left,
    and whether the block raised.  The three writes go to a buffer; the
    block closes the file on its way out, also when a write raised. *)
Definition write_output (output_filename literature_review paper_list : str)
    : option (str * str) * result unit :=
  match open_w W output_filename with
  | Raise e => (None, Raise e)
  | Return _ =>
      match file_write W [] literature_review with
      | Failed e stored =>
          (Some (output_filename, firstn stored literature_review), Raise e)
      | Done =>
          match file_write W literature_review [NEWLINE; NEWLINE] with
          | Failed e stored =>
              (Some (output_filename,
                     firstn stored (literature_review ++ [NEWLINE; NEWLINE])),
               Raise e)
          | Done =>
              let written := literature_review ++ [NEWLINE; NEWLINE] in
              match file_write W written paper_list with
              | Failed e stored =>
                  (Some (output_filename,
                         firstn stored (written ++ paper_list)),
                   Raise e)
              | Done =>
                  match file_close W (written ++ paper_list) with
                  | Failed e stored =>
                      (Some (output_filename,
                             firstn stored (written ++ paper_list)),
                       Raise e)
                  | Done =>
                      (Some (output_filename, written ++ paper_list),
                       Return tt)
                  end
              end
          end
      end
  end.

Definition main (fuel : nat) : option Run :=
  match find_pdf_folder with
  | Raise _ => Some (Build_Run FailedUnexpected [] None)
  | Return pdf_folder =>
      match listdir W pdf_folder with
      | Raise _ => Some (Build_Run FailedUnexpected [] None)
      | Return names =>
          let pdf_files := filter is_pdf names in
          match pdf_files with
          | [] => Some (Build_Run FailedNoInput [] None)
          | _ :: _ =>
              match submit_all fuel (map (path_join pdf_folder) pdf_files) with
              | None => None
              | Some futures =>
                  let summaries := collect (as_completed W futures) in
                  match summaries with
                  | [] => Some (Build_Run FailedNoOutput [] None)
                  | _ :: _ =>
                      match synthesize_reviews W fuel summaries with
                      | None => None
                      | Some (Raise _, _) =>
                          Some (Build_Run FailedUnexpected summaries None)
                      | Some (Return literature_review, _) =>
                          let paper_list :=
                            create_paper_list (unicode W) summaries in
                          let output_filename :=
                            u "literature_review_" ++ now W ++ u ".md" in
                          match write_output output_filename
                                  literature_review paper_list with
                          | (file, Raise _) =>
                              Some (Build_Run FailedUnexpected summaries file)
                          | (file, Return _) =>
                              Some (Build_Run Completed summaries file)
                          end
                      end
                  end
              end
          end
      end
  end.

End Main.

(** ** Inputs used to run the definitions *)

(** A summary with the three fields the citation reads. *)
Definition paper (title : str) (authors : list str) (year : Z) : PaperSummary :=
  {| title := title; authors := authors; year := year;
     research_question := []; theoretical_framework := [];
     methodology := []; main_arguments := []; findings := [];
     significance := []; limitations := []; future_research := [] |}.

(** A fragment of the Unicode tables: e-acute, the no-break space and the
    fi ligature decompose; e-acute is the one cased letter outside ASCII. *)
Definition decompose (c : char) : str :=
  if (c =? 0xE9)%N then [0x65; 0x301]%N
  else if (c =? 0xC9)%N then [0x45; 0x301]%N
  else if (c =? 0xA0)%N then [0x20]%N
  else if (c =? 0xFB01)%N then [0x66; 0x69]%N
  else [c].

Definition fragment_lower_char (c : char) : char :=
  if (c =? 0xC9)%N then 0xE9%N else ascii_lower_char c.

Definition fragment_upper_char (c : char) : char :=
  if (c =? 0xE9)%N then 0xC9%N else ascii_upper_char c.

Definition unicode_fragment : Unicode :=
  {| nfkd := flat_map decompose;
     unicode_lower := map fragment_lower_char;
     unicode_upper := map fragment_upper_char;
     unicode_capitalize := fun s =>
       match s with
       | [] => []
       | c :: rest => fragment_upper_char c :: map fragment_lower_char rest
       end;
     int_max_str_digits := 4300 |}.

(** ** Predicates on cleaned text *)

(** Two adjacent whitespace characters somewhere in [s]. *)
Fixpoint has_whitespace_run (s : str) : bool :=
  match s with
  | c1 :: (c2 :: _) as rest =>
      isspace c1 && isspace c2 || has_whitespace_run rest
  | _ => false
  end.

Definition starts_with_space (s : str) : bool :=
  match s with
  | c :: _ => isspace c
  | [] => false
  end.

Definition ends_with_space (s : str) : bool := starts_with_space (rev s).

Definition printable (c : char) : bool := (32 <=? c)%N.

(** The futures that returned a summary, in the order of the list. *)
Definition successes (futures : list (result PaperSummary))
    : list PaperSummary :=
  flat_map (fun future =>
              match future with
              | Return summary => [summary]
              | Raise _ => []
              end)
    futures.

(** What a call decorated with [@retry(stop=stop_after_attempt(3), ...)]
    owes its caller, [body n] being what the [n]-th run of the function
    does: the call ends after at most three runs; the first run that
    returns ends it with that value; three failing runs end it with a
    [RetryError] that wraps the third exception. *)
Definition three_attempts {A} (body : nat -> result A)
    (call : option (result A * list Tenacity.event)) : Prop :=
  exists outcome events,
    call = Some (outcome, events)
    /\ (Tenacity.attempts events <= 3)%nat
    /\ (forall k a,
          (1 <= k <= 3)%nat ->
          (forall j, (1 <= j < k)%nat -> exists e, body j = Raise e) ->
          body k = Return a ->
          outcome = Return a /\ Tenacity.attempts events = k)
    /\ (forall e1 e2 e3,
          body 1%nat = Raise e1 -> body 2%nat = Raise e2 ->
          body 3%nat = Raise e3 ->
          outcome = Raise (RetryError e3) /\ Tenacity.attempts events = 3%nat).

(** A small world: the folder [/app/PDF] holds [names]; the files chosen
    by [corrupt] cannot be read; the endpoint is down altogether
    ([endpoint_down]) or fails twice on [b.pdf] before it answers; futures
    complete in the reverse of the submission order. *)
Definition sample_world (names : list str) (corrupt : str -> bool)
    (endpoint_down : bool) : World :=
  {| unicode := unicode_fragment;
     script_dir := u "/app";
     isdir := fun path => str_eqb path (u "/app/PDF");
     listdir := fun _ => Return names;
     pdf_pages := fun path =>
       if corrupt (basename path) then Raise (CollaboratorError 1)
       else Return [basename path; u "second page"];
     chat_completions_create := fun req attempt =>
       if endpoint_down then Raise (CollaboratorError 503)
       else match req with
            | AnalysisPrompt filename text =>
                if (attempt <? 3)%nat && str_eqb filename (u "b.pdf")
                then Raise (CollaboratorError 429)
                else Return filename
            | SynthesisPrompt summaries => Return (u "A review.")
            end;
     parse_raw := fun content => Return (paper content [u "Jane Smith"] 2020);
     as_completed := @rev (result PaperSummary);
     now := u "20240101_120000";
     open_w := fun _ => Return tt;
     file_write := fun _ _ => Done;
     file_close := fun _ => Done |}.

(** Four [.pdf] files, one of them corrupt, next to a file of another
    kind. *)
Definition four_files : list str :=
  [u "a.pdf"; u "notes.txt"; u "b.pdf"; u "corrupt.pdf"; u "c.pdf"].

Definition is_corrupt (filename : str) : bool :=
  str_eqb filename (u "corrupt.pdf").

(** A character that is not whitespace. *)
Definition visible (c : char) : bool := negb (isspace c).

(** Printable ASCII: what the first two passes of [clean_text] keep. *)
Definition printable_ascii (c : char) : bool := isascii_char c && printable c.

(** A file name without a path separator. *)
Definition is_entry_name (f : str) : bool :=
  forallb (fun c => negb (c =? 47)%N) f.

(** The test [name.lower() in ['van', 'von', 'de', 'du']]. *)
Definition is_particle (U : Unicode) (name : str) : bool :=
  str_in (lower U name) particles.

(** [name[0].upper() + '.'] for a name that is not empty. *)
Definition initial (U : Unicode) (name : str) : str :=
  upper U (firstn 1 name) ++ u ".".

(** The initials of the given names: those of the names that are not
    particles, joined by ". ". *)
Definition initials_of (U : Unicode) (names : list str) : str :=
  join (u ". ")
    (map (initial U) (filter (fun name => negb (is_particle U name)) names)).

(** The sample world with an endpoint that analyses papers but fails on
    every synthesis request. *)
Definition world_without_synthesis : World :=
  let W := sample_world four_files is_corrupt false in
  {| unicode := unicode W;
     script_dir := script_dir W;
     isdir := isdir W;
     listdir := listdir W;
     pdf_pages := pdf_pages W;
     chat_completions_create := fun req attempt =>
       match req with
       | SynthesisPrompt _ => Raise (CollaboratorError 500)
       | AnalysisPrompt _ _ => chat_completions_create W req attempt
       end;
     parse_raw := parse_raw W;
     as_completed := as_completed W;
     now := now W;
     open_w := open_w W;
     file_write := file_write W;
     file_close := file_close W |}.

(** The sample world with a disk that has room for 20 characters: the
    writes return, the close fails. *)
Definition world_with_full_disk : World :=
  let W := sample_world four_files is_corrupt false in
  {| unicode := unicode W;
     script_dir := script_dir W;
     isdir := isdir W;
     listdir := listdir W;
     pdf_pages := pdf_pages W;
     chat_completions_create := chat_completions_create W;
     parse_raw := parse_raw W;
     as_completed := as_completed W;
     now := now W;
     open_w := open_w W;
     file_write := file_write W;
     file_close := fun text =>
       if (length text <=? 20)%nat then Done
       else Failed (CollaboratorError 28) 20 |}.

(** The name [main] gives its output file. *)
Definition output_name (W : World) : str :=
  u "literature_review_" ++ now W ++ u ".md".

(** The document [main] means to write. *)
Definition document (W : World) (review : str)
    (summaries : list PaperSummary) : str :=
  (review ++ [NEWLINE; NEWLINE]) ++ create_paper_list (unicode W) summaries.

(** A word as [split] yields them from ASCII text: not empty, without
    whitespace, pure ASCII. *)
Definition ascii_word (w : str) : bool :=
  negb (length w =? 0)%nat && forallb visible w && isascii w.

(** The choice made for each word by the title-casing step. *)
Definition case_word (U : Unicode) (iw : nat * str) : str :=
  let (i, word) := iw in
  if (i =? 0)%nat || negb (str_in (lower U word) stop_words)
  then capitalize U word
  else lower U word.

(** The text of the line a summary gets in the list of papers, after the
    bullet: its citation, or the placeholder when the citation raised. *)
Definition entry_line (U : Unicode) (summary : PaperSummary) (line : str)
    : Prop :=
  create_apa_citation U summary = Return line
  \/ (exists e, create_apa_citation U summary = Raise e)
     /\ line = u "Error in citation: " ++ title summary.

(** The events of [count] attempts numbered from [first], with a sleep
    after each attempt but the last. *)
Fixpoint attempt_trace (first count : nat) : list Tenacity.event :=
  match count with
  | O => []
  | S O => [Tenacity.DoAttempt first]
  | S (S _ as rest) =>
      Tenacity.DoAttempt first :: Tenacity.DoSleep first
        :: attempt_trace (S first) rest
  end.

(** * Properties *)

(** ** Whitespace and cleaning *)

Lemma space_of_printable_ascii (c : char) :
  printable c = true -> isascii_char c = true -> isspace c = true ->
  c = SPACE.
Proof.
  unfold printable, isascii_char, isspace, SPACE. intros Hp Ha Hs.
  apply N.leb_le in Hp. apply N.ltb_lt in Ha.
  repeat (apply orb_true_iff in Hs; destruct Hs as [Hs | Hs]);
    try (apply andb_true_iff in Hs; destruct Hs as [H1 H2];
         apply N.leb_le in H1; apply N.leb_le in H2);
    try apply N.eqb_eq in Hs; lia.
Qed.

Lemma forallb_re_sub_spaces_from (P : char -> bool) (b : bool) (s : str) :
  P SPACE = true -> forallb P s = true ->
  forallb P (re_sub_spaces_from b s) = true.
Proof.
  intros HP. revert b. induction s as [| c rest IH]; intros b Hs; simpl.
  - reflexivity.
  - simpl in Hs. apply andb_true_iff in Hs. destruct Hs as [Hc Hrest].
    destruct (isspace c).
    + destruct b; simpl; [| rewrite HP; simpl]; auto.
    + simpl. rewrite Hc. simpl. auto.
Qed.

Lemma lstrip_suffix (s : str) :
  exists spaces, s = spaces ++ lstrip s /\ forallb isspace spaces = true.
Proof.
  induction s as [| c rest IH]; simpl.
  - exists []. auto.
  - destruct (isspace c) eqn:Hc.
    + destruct IH as [sp [Heq Hsp]]. exists (c :: sp). simpl.
      rewrite Hc, Hsp. split; [congruence | reflexivity].
    + exists []. auto.
Qed.

Lemma rstrip_prefix (s : str) :
  exists spaces, s = rstrip s ++ spaces /\ forallb isspace spaces = true.
Proof.
  unfold rstrip. destruct (lstrip_suffix (rev s)) as [sp [Heq Hsp]].
  exists (rev sp). split.
  - rewrite <- rev_app_distr, <- Heq, rev_involutive. reflexivity.
  - rewrite forallb_forall in *. intros x Hx. apply Hsp.
    apply in_rev. exact Hx.
Qed.

Lemma lstrip_head (s : str) : starts_with_space (lstrip s) = false.
Proof.
  induction s as [| c rest IH]; simpl; auto.
  destruct (isspace c) eqn:Hc; [exact IH | simpl; exact Hc].
Qed.

Lemma lstrip_id (s : str) : starts_with_space s = false -> lstrip s = s.
Proof. destruct s as [| c rest]; simpl; auto. intros ->. reflexivity. Qed.

Lemma rstrip_id (s : str) : ends_with_space s = false -> rstrip s = s.
Proof.
  unfold ends_with_space, rstrip. intros H.
  rewrite (lstrip_id _ H). apply rev_involutive.
Qed.

Lemma rstrip_last (s : str) : ends_with_space (rstrip s) = false.
Proof.
  unfold ends_with_space, rstrip. rewrite rev_involutive. apply lstrip_head.
Qed.

Lemma rstrip_head (s : str) :
  starts_with_space s = false -> starts_with_space (rstrip s) = false.
Proof.
  intros H. destruct (rstrip_prefix s) as [sp [Heq _]].
  destruct (rstrip s) as [| c r]; [reflexivity |].
  rewrite Heq in H. exact H.
Qed.

Lemma strip_head (s : str) : starts_with_space (strip s) = false.
Proof. unfold strip. apply rstrip_head, lstrip_head. Qed.

Lemma strip_last (s : str) : ends_with_space (strip s) = false.
Proof. unfold strip. apply rstrip_last. Qed.

Lemma forallb_strip (P : char -> bool) (s : str) :
  forallb P s = true -> forallb P (strip s) = true.
Proof.
  unfold strip. intros H.
  destruct (lstrip_suffix s) as [sp1 [E1 _]].
  destruct (rstrip_prefix (lstrip s)) as [sp2 [E2 _]].
  rewrite E1, forallb_app in H. apply andb_true_iff in H. destruct H as [_ H].
  rewrite E2, forallb_app in H. apply andb_true_iff in H. tauto.
Qed.

Lemma has_whitespace_run_app (a b : str) :
  has_whitespace_run (a ++ b) = false ->
  has_whitespace_run a = false /\ has_whitespace_run b = false.
Proof.
  induction a as [| c1 a IH]; simpl; [auto |].
  destruct a as [| c2 a'].
  - simpl. destruct b as [| c2 b']; [auto |].
    intros H. apply orb_false_iff in H. tauto.
  - simpl in *. intros H. apply orb_false_iff in H. destruct H as [H1 H2].
    destruct (IH H2) as [Ha Hb]. rewrite H1, Ha. auto.
Qed.

(** What [has_whitespace_run] decides. *)
Lemma has_whitespace_run_false (s : str) :
  has_whitespace_run s = false ->
  forall a c1 c2 b,
    s = a ++ c1 :: c2 :: b -> isspace c1 && isspace c2 = false.
Proof.
  intros H a c1 c2 b ->.
  apply has_whitespace_run_app in H. destruct H as [_ H].
  simpl in H. apply orb_false_iff in H. tauto.
Qed.

Lemma has_whitespace_run_strip (s : str) :
  has_whitespace_run s = false -> has_whitespace_run (strip s) = false.
Proof.
  unfold strip. intros H.
  destruct (lstrip_suffix s) as [sp1 [E1 _]].
  destruct (rstrip_prefix (lstrip s)) as [sp2 [E2 _]].
  rewrite E1 in H. apply has_whitespace_run_app in H. destruct H as [_ H].
  rewrite E2 in H. apply has_whitespace_run_app in H. tauto.
Qed.

Lemma has_whitespace_run_cons (c1 c2 : char) (r : str) :
  has_whitespace_run (c1 :: c2 :: r)
  = isspace c1 && isspace c2 || has_whitespace_run (c2 :: r).
Proof. reflexivity. Qed.

(** The substitution leaves no run behind, and inside a run its result
    does not start with whitespace. *)
Lemma re_sub_spaces_from_no_run (b : bool) (s : str) :
  has_whitespace_run (re_sub_spaces_from b s) = false
  /\ (b = true -> starts_with_space (re_sub_spaces_from b s) = false).
Proof.
  revert b. induction s as [| c rest IH]; intros b; simpl.
  - auto.
  - destruct (isspace c) eqn:Hc.
    + destruct b.
      * apply IH.
      * destruct (IH true) as [Hrun Hhead]. split; [| discriminate].
        specialize (Hhead eq_refl).
        destruct (re_sub_spaces_from true rest) as [| c2 r] eqn:E;
          [reflexivity |].
        simpl in Hhead. rewrite has_whitespace_run_cons, Hhead, andb_false_r.
        exact Hrun.
    + destruct (IH false) as [Hrun _]. split.
      * destruct (re_sub_spaces_from false rest) as [| c2 r] eqn:E;
          [reflexivity |].
        rewrite has_whitespace_run_cons, Hc. exact Hrun.
      * intros _. simpl. exact Hc.
Qed.

Lemma re_sub_spaces_from_id (s : str) :
  forallb printable s = true -> isascii s = true ->
  has_whitespace_run s = false ->
  re_sub_spaces_from false s = s
  /\ (starts_with_space s = false -> re_sub_spaces_from true s = s).
Proof.
  induction s as [| c rest IH]; intros Hp Ha Hrun; [auto |].
  simpl in Hp, Ha. apply andb_true_iff in Hp, Ha.
  destruct Hp as [Hpc Hp], Ha as [Hac Ha].
  assert (Hrest : has_whitespace_run rest = false).
  { change (c :: rest) with ([c] ++ rest) in Hrun.
    apply has_whitespace_run_app in Hrun. tauto. }
  destruct (IH Hp Ha Hrest) as [IHf IHt].
  simpl. destruct (isspace c) eqn:Hc.
  - split; [| discriminate].
    rewrite (space_of_printable_ascii c Hpc Hac Hc). f_equal.
    apply IHt. destruct rest as [| c2 r]; [reflexivity |].
    simpl in Hrun. rewrite Hc in Hrun. simpl in Hrun.
    apply orb_false_iff in Hrun. simpl. tauto.
  - split; intros; f_equal; exact IHf.
Qed.

Section CleanTextFacts.
Variable U : Unicode.

Lemma clean_text_printable (text : str) :
  forallb printable (clean_text U text) = true.
Proof.
  unfold clean_text. apply forallb_strip.
  apply forallb_re_sub_spaces_from; [reflexivity |].
  apply (forallb_filter printable).
Qed.

Lemma clean_text_isascii (text : str) : isascii (clean_text U text) = true.
Proof.
  unfold clean_text, isascii. apply forallb_strip.
  apply forallb_re_sub_spaces_from; [reflexivity |].
  apply forallb_forall. intros c Hc. apply filter_In in Hc.
  destruct Hc as [Hc _]. unfold encode_ascii_ignore in Hc.
  apply filter_In in Hc. tauto.
Qed.

Lemma clean_text_no_run (text : str) :
  has_whitespace_run (clean_text U text) = false.
Proof.
  unfold clean_text. apply has_whitespace_run_strip.
  apply (re_sub_spaces_from_no_run false).
Qed.

(** C3. Whatever the input, the text returned by [clean_text] has no
    character of ordinal below 32, no two adjacent whitespace characters, no
    whitespace at its start or at its end, and only ASCII characters. *)
Theorem clean_text_output_is_clean (text : str) :
  forallb (fun c => (32 <=? c)%N) (clean_text U text) = true
  /\ has_whitespace_run (clean_text U text) = false
  /\ starts_with_space (clean_text U text) = false
  /\ ends_with_space (clean_text U text) = false
  /\ forallb (fun c => (c <? 128)%N) (clean_text U text) = true.
Proof.
  split; [apply clean_text_printable |].
  split; [apply clean_text_no_run |].
  split; [apply strip_head |].
  split; [apply strip_last | apply clean_text_isascii].
Qed.

(** C10. [clean_text] is idempotent, given that compatibility
    decomposition leaves pure ASCII strings as they are. *)
Theorem clean_text_idempotent (text : str) :
  (forall s, isascii s = true -> nfkd U s = s) ->
  clean_text U (clean_text U text) = clean_text U text.
Proof.
  intros Hnfkd.
  pose proof (clean_text_printable text) as Hp.
  pose proof (clean_text_isascii text) as Ha.
  pose proof (clean_text_no_run text) as Hrun.
  assert (Hhead : starts_with_space (clean_text U text) = false)
    by apply strip_head.
  assert (Hlast : ends_with_space (clean_text U text) = false)
    by apply strip_last.
  set (out := clean_text U text) in *.
  unfold clean_text at 1.
  rewrite (Hnfkd out Ha).
  unfold encode_ascii_ignore. rewrite (forallb_filter_id isascii_char out Ha).
  rewrite (forallb_filter_id (fun char => (32 <=? char)%N) out Hp).
  unfold re_sub_spaces.
  rewrite (proj1 (re_sub_spaces_from_id out Hp Ha Hrun)).
  unfold strip. rewrite (lstrip_id _ Hhead). apply rstrip_id. exact Hlast.
Qed.

End CleanTextFacts.

Lemma nfkd_fragment_ascii (s : str) :
  isascii s = true -> nfkd unicode_fragment s = s.
Proof.
  simpl. induction s as [| c rest IH]; simpl; [reflexivity |].
  intros H. apply andb_true_iff in H. destruct H as [Hc Hrest].
  rewrite (IH Hrest). unfold isascii_char in Hc. apply N.ltb_lt in Hc.
  unfold decompose.
  repeat match goal with
         | |- context [(c =? ?k)%N] =>
             destruct (N.eqb_spec c k); [lia |]
         end.
  reflexivity.
Qed.

(** C10 at a text with accented letters, a no-break space, a ligature and
    line breaks, read through the table fragment. *)
Lemma clean_text_idempotent_witness :
  (forall s, isascii s = true -> nfkd unicode_fragment s = s)
  /\ clean_text unicode_fragment
       (clean_text unicode_fragment
          ([0x20; 0x63; 0x61; 0x66; 0xE9; 0xA0; 0xFB01; 0x6E; 0x0A; 0x0A;
            0x20; 0x64; 0xE9; 0x6A; 0x61; 0x20]%N))
     = clean_text unicode_fragment
         ([0x20; 0x63; 0x61; 0x66; 0xE9; 0xA0; 0xFB01; 0x6E; 0x0A; 0x0A;
           0x20; 0x64; 0xE9; 0x6A; 0x61; 0x20]%N).
Proof.
  split; [exact nfkd_fragment_ascii |].
  apply (clean_text_idempotent unicode_fragment). exact nfkd_fragment_ascii.
Defined.

(** ** Sequences and strings *)

Lemma str_eqb_eq (a b : str) : str_eqb a b = true <-> a = b.
Proof.
  revert b. induction a as [| x a IH]; intros [| y b]; simpl;
    try (split; [discriminate | discriminate]); [tauto |].
  rewrite andb_true_iff, N.eqb_eq, IH. split.
  - intros [-> ->]. reflexivity.
  - intros H. injection H. auto.
Qed.

Lemma endswith_spec (s suffix : str) :
  endswith s suffix = true <-> exists p, s = p ++ suffix.
Proof.
  unfold endswith. rewrite andb_true_iff, Nat.leb_le, str_eqb_eq. split.
  - intros [Hlen Heq].
    exists (firstn (length s - length suffix) s).
    rewrite <- Heq at 2. symmetry. apply firstn_skipn.
  - intros [p ->]. rewrite length_app. split; [lia |].
    replace (length p + length suffix - length suffix)%nat
      with (length p + 0)%nat by lia.
    rewrite skipn_app, Nat.add_0_r, skipn_all.
    replace (length p - length p)%nat with 0%nat by lia. reflexivity.
Qed.

Lemma endswith_snoc (s suffix : str) (c d : char) :
  endswith (s ++ [c]) (suffix ++ [d]) = (c =? d)%N && endswith s suffix.
Proof.
  apply eq_true_iff_eq.
  rewrite andb_true_iff, N.eqb_eq, !endswith_spec. split.
  - intros [p Hp]. rewrite app_assoc in Hp.
    apply app_inj_tail in Hp. destruct Hp as [-> ->]. eauto.
  - intros [-> [p ->]]. exists p. rewrite app_assoc. reflexivity.
Qed.

Lemma index_from_end {A} (l : list A) (k : nat) (a : A) :
  (0 < k <= length l)%nat -> nth_error l (length l - k) = Some a ->
  index l (- Z.of_nat k) = Return a.
Proof.
  intros Hk H. unfold index.
  destruct (Z.ltb_spec (- Z.of_nat k) 0); [| lia].
  destruct (Z.ltb_spec (- Z.of_nat k + Z.of_nat (length l)) 0); [lia |].
  destruct (Z.leb_spec (Z.of_nat (length l))
              (- Z.of_nat k + Z.of_nat (length l))); [lia |].
  simpl.
  replace (Z.to_nat (- Z.of_nat k + Z.of_nat (length l)))
    with (length l - k)%nat by lia.
  rewrite H. reflexivity.
Qed.

Lemma index_returns_from_end {A} (l : list A) (k : nat) :
  (0 < k <= length l)%nat -> exists a, index l (- Z.of_nat k) = Return a.
Proof.
  intros Hk. destruct (nth_error l (length l - k)) as [a |] eqn:E.
  - exists a. apply index_from_end; assumption.
  - apply nth_error_None in E. lia.
Qed.

Lemma index_last {A} (l : list A) (d : A) :
  l <> [] -> index l (-1) = Return (last l d).
Proof.
  intros Hl. apply (index_from_end l 1).
  - destruct l; [congruence | simpl; lia].
  - rewrite (app_removelast_last d Hl) at 1 2.
    rewrite length_app, nth_error_app2; simpl; [| lia].
    replace (length (removelast l) + 1 - 1 - length (removelast l))%nat
      with 0%nat by lia.
    reflexivity.
Qed.

Lemma slice_to_minus_one {A} (l : list A) : slice_to l (-1) = removelast l.
Proof.
  unfold slice_to, clamp. rewrite removelast_firstn_len. f_equal.
  destruct (Z.ltb_spec (-1) 0); lia.
Qed.

Lemma split_from_nonempty (word s : str) :
  Forall (fun w => w <> []) (split_from word s).
Proof.
  revert word. induction s as [| c rest IH]; intros word; simpl.
  - destruct word; constructor; [discriminate | constructor].
  - destruct (isspace c); [| apply IH].
    destruct word; [apply IH |]. constructor; [discriminate | apply IH].
Qed.

Lemma map_result_returns {A B} (f : A -> result B) (l : list A) :
  Forall (fun a => exists b, f a = Return b) l ->
  exists bs, map_result f l = Return bs /\ length bs = length l.
Proof.
  induction 1 as [| a rest [b Hb] _ [bs [Hbs Hlen]]]; simpl.
  - exists []. auto.
  - rewrite Hb. simpl. rewrite Hbs. simpl. exists (b :: bs). simpl. auto.
Qed.

(** ** The citation *)

Section CitationFacts.
Variable U : Unicode.

Lemma format_author_returns (author : str) :
  exists formatted, format_author U author = Return formatted.
Proof.
  unfold format_author.
  destruct (Nat.ltb_spec 1 (length (split author))) as [Hlen | Hlen];
    [| eauto].
  destruct (index_returns_from_end (split author) 2 ltac:(lia)) as [p Hp].
  change (- Z.of_nat 2)%Z with (-2)%Z in Hp. rewrite Hp. cbn [bind].
  assert (Hlast : exists last_name,
    (if str_in (lower U p) particles
     then Return (join (u " ") (slice_from (split author) (-2)))
     else index (split author) (-1)) = Return last_name).
  { destruct (str_in (lower U p) particles); [eauto |].
    apply (index_returns_from_end (split author) 1). lia. }
  destruct Hlast as [last_name ->]. cbn [bind].
  match goal with
  | |- context [map_result ?f ?l] =>
      destruct (map_result_returns f l) as [initials [-> _]]
  end.
  - apply Forall_forall. intros name Hname.
    apply filter_In in Hname. destruct Hname as [Hname _].
    unfold slice_to in Hname.
    assert (Hin : In name (split author)).
    { rewrite <- (firstn_skipn (clamp (length (split author)) (-1))).
      apply in_or_app. left. exact Hname. }
    clear Hname. rename Hin into Hname.
    pose proof (split_from_nonempty [] author) as Hne.
    rewrite Forall_forall in Hne. specialize (Hne name Hname).
    destruct name as [| c name']; [congruence |].
    exists (upper U [c] ++ u "."). reflexivity.
  - cbn [bind]. eauto.
Qed.

Lemma join_authors_one (a : str) : join_authors [a] = Return a.
Proof. reflexivity. Qed.

Lemma join_authors_two (a b : str) :
  join_authors [a; b] = Return (a ++ u " & " ++ b).
Proof. reflexivity. Qed.

Lemma join_authors_many (a b c : str) (rest : list str) :
  join_authors (a :: b :: c :: rest)
  = Return (join (u ", ") (removelast (a :: b :: c :: rest))
              ++ u ", & " ++ last (a :: b :: c :: rest) []).
Proof.
  unfold join_authors.
  change (length (a :: b :: c :: rest)) with (S (S (S (length rest)))).
  cbn [Nat.eqb Nat.ltb Nat.leb].
  rewrite (index_last (a :: b :: c :: rest) []) by discriminate.
  rewrite slice_to_minus_one. reflexivity.
Qed.

Lemma join_authors_returns (formatted_authors : list str) :
  exists authors_string, join_authors formatted_authors = Return authors_string.
Proof.
  destruct formatted_authors as [| a [| b [| c rest]]].
  - exists (u "Unknown"). reflexivity.
  - rewrite join_authors_one. eauto.
  - rewrite join_authors_two. eauto.
  - rewrite join_authors_many. eauto.
Qed.

(** The shape of every citation of a summary that has authors. *)
Lemma create_apa_citation_with_authors (summary : PaperSummary) :
  authors summary <> [] ->
  exists formatted_authors authors_string,
    map_result (format_author U) (authors summary) = Return formatted_authors
    /\ length formatted_authors = length (authors summary)
    /\ join_authors formatted_authors = Return authors_string
    /\ create_apa_citation U summary
       = (year <- format_int U (year summary) ;;
          Return (authors_string ++ u " (" ++ year ++ u "). "
                    ++ remove_trailing_period (title_case U (title summary))
                    ++ u "."))%result.
Proof.
  intros Hne.
  destruct (map_result_returns (format_author U) (authors summary))
    as [fa [Hfa Hlen]].
  { apply Forall_forall. intros a _. apply format_author_returns. }
  destruct (join_authors_returns fa) as [js Hjs].
  exists fa, js. repeat split; auto.
  unfold create_apa_citation.
  destruct (authors summary) as [| a rest] eqn:E; [congruence |].
  rewrite Hfa. cbn [bind]. rewrite Hjs. reflexivity.
Qed.

Lemma format_int_within_limit (n : Z) :
  exceeds_max_str_digits U n = false -> format_int U n = Return (decimal n).
Proof. unfold format_int. intros ->. reflexivity. Qed.

Lemma format_int_beyond_limit (n : Z) :
  exceeds_max_str_digits U n = true -> format_int U n = Raise ValueError.
Proof. unfold format_int. intros ->. reflexivity. Qed.

(** Whether a citation is returned is decided by the year alone. *)
Lemma create_apa_citation_after_year (summary : PaperSummary) :
  exists before after,
    create_apa_citation U summary
    = (year <- format_int U (year summary) ;;
       Return (before ++ year ++ after))%result.
Proof.
  destruct (authors summary) as [| a rest] eqn:E.
  - exists (u "Unknown. ("), (u "). " ++ title summary ++ u ".").
    unfold create_apa_citation. rewrite E. reflexivity.
  - destruct (create_apa_citation_with_authors summary)
      as [fa [js [_ [_ [_ H]]]]]; [congruence |].
    exists (js ++ u " ("),
      (u "). " ++ remove_trailing_period (title_case U (title summary))
         ++ u ".").
    rewrite H. destruct (format_int U (year summary)); [| reflexivity].
    cbn [bind]. rewrite <- !app_assoc. reflexivity.
Qed.

Lemma create_apa_citation_returns (summary : PaperSummary) :
  exceeds_max_str_digits U (year summary) = false ->
  exists citation, create_apa_citation U summary = Return citation.
Proof.
  intros Hyear.
  destruct (create_apa_citation_after_year summary) as [b [a ->]].
  rewrite (format_int_within_limit _ Hyear). cbn [bind]. eauto.
Qed.

Lemma create_apa_citation_raises (summary : PaperSummary) :
  exceeds_max_str_digits U (year summary) = true ->
  create_apa_citation U summary = Raise ValueError.
Proof.
  intros Hyear.
  destruct (create_apa_citation_after_year summary) as [b [a ->]].
  rewrite (format_int_beyond_limit _ Hyear). reflexivity.
Qed.

Lemma create_paper_list_entries (summaries : list PaperSummary) :
  create_paper_list U summaries
  = paper_list_heading ++ concat (map (paper_list_entry U) summaries).
Proof.
  unfold create_paper_list. generalize paper_list_heading.
  induction summaries as [| s rest IH]; intros acc; simpl.
  - rewrite app_nil_r. reflexivity.
  - rewrite IH, app_assoc. reflexivity.
Qed.

End CitationFacts.

(** ** Claims about the citation *)

(** C1. For the title "the rise of the machines" the title-casing step
    yields "The Rise of the Machines": "rise" and "machines", which are not
    stop words, are capitalized as well, so the title portion is not the
    "The rise of the machines" that the comment above the step ("capitalize
    only the first word and proper nouns") describes. *)
Theorem title_case_rise_of_the_machines (U : Unicode) :
  title_case U (u "the rise of the machines") = u "The Rise of the Machines"
  /\ title_case U (u "the rise of the machines")
     <> u "The rise of the machines"
  /\ create_apa_citation U
       (paper (u "the rise of the machines") [u "Jane Smith"] 2024)
     = Return (u "Smith, J. (2024). The Rise of the Machines.").
Proof.
  split; [reflexivity |]. split; [discriminate | reflexivity].
Qed.

Lemma last_char_cases (t : str) : t = [] \/ exists t' c, t = t' ++ [c].
Proof.
  induction t as [| c t' _] using rev_ind; [left | right]; eauto.
Qed.

Lemma remove_trailing_period_snoc (t : str) :
  remove_trailing_period (t ++ [PERIOD]) = t.
Proof.
  unfold remove_trailing_period.
  replace (endswith (t ++ [PERIOD]) (u ".")) with true.
  - rewrite slice_to_minus_one. apply removelast_last.
  - symmetry. apply endswith_spec. exists t. reflexivity.
Qed.

Lemma remove_trailing_period_keep (t : str) :
  endswith t (u ".") = false -> remove_trailing_period t = t.
Proof. unfold remove_trailing_period. intros ->. reflexivity. Qed.

Lemma endswith_one (s : str) (c d : char) :
  endswith (s ++ [c]) [d] = (c =? d)%N.
Proof.
  change [d] with ([] ++ [d]). rewrite endswith_snoc.
  replace (endswith s []) with true; [apply andb_true_r |].
  symmetry. apply endswith_spec. exists s. symmetry. apply app_nil_r.
Qed.

Lemma endswith_two (s : str) (c1 c2 d1 d2 : char) :
  endswith (s ++ [c1; c2]) [d1; d2] = (c2 =? d2)%N && (c1 =? d1)%N.
Proof.
  change (s ++ [c1; c2]) with (s ++ [c1] ++ [c2]). rewrite app_assoc.
  change [d1; d2] with ([d1] ++ [d2]). rewrite endswith_snoc, endswith_one.
  reflexivity.
Qed.

(** After the step, a space followed by the title and the final period
    ends in two periods exactly when the title did. *)
Lemma double_period_after_strip (before t : str) :
  endswith (before ++ [SPACE] ++ remove_trailing_period t ++ [PERIOD])
    [PERIOD; PERIOD]
  = endswith t [PERIOD; PERIOD].
Proof.
  destruct (last_char_cases t) as [-> | [t1 [c ->]]].
  - change (before ++ [SPACE] ++ remove_trailing_period [] ++ [PERIOD])
      with (before ++ [SPACE; PERIOD]).
    rewrite endswith_two. reflexivity.
  - destruct (N.eqb_spec c PERIOD) as [-> | Hc].
    + rewrite remove_trailing_period_snoc.
      destruct (last_char_cases t1) as [-> | [t2 [d ->]]].
      * change (before ++ [SPACE] ++ [] ++ [PERIOD])
          with (before ++ [SPACE; PERIOD]).
        rewrite endswith_two. reflexivity.
      * replace (before ++ [SPACE] ++ (t2 ++ [d]) ++ [PERIOD])
          with ((before ++ [SPACE] ++ t2) ++ [d; PERIOD])
          by (rewrite <- !app_assoc; reflexivity).
        replace ((t2 ++ [d]) ++ [PERIOD]) with (t2 ++ [d; PERIOD])
          by (rewrite <- !app_assoc; reflexivity).
        rewrite !endswith_two. reflexivity.
    + apply N.eqb_neq in Hc.
      rewrite remove_trailing_period_keep
        by (change (u ".") with [PERIOD]; rewrite endswith_one; exact Hc).
      replace (before ++ [SPACE] ++ (t1 ++ [c]) ++ [PERIOD])
        with ((before ++ [SPACE] ++ t1) ++ [c; PERIOD])
        by (rewrite <- !app_assoc; reflexivity).
      rewrite endswith_two, Hc, andb_false_r.
      destruct (last_char_cases t1) as [-> | [t2 [d ->]]];
        [reflexivity |].
      replace ((t2 ++ [d]) ++ [c]) with (t2 ++ [d; c])
        by (rewrite <- !app_assoc; reflexivity).
      rewrite endswith_two, Hc. reflexivity.
Qed.

(** C2, refuted as stated. A summary without authors keeps the period of
    its title, and a title ending in several periods loses only one of them:
    both citations end in two periods. *)
Lemma citation_ends_in_two_periods :
  create_apa_citation unicode_fragment (paper (u "Deep learning.") [] 2015)
  = Return (u "Unknown. (2015). Deep learning..")
  /\ endswith (u "Unknown. (2015). Deep learning..") (u "..") = true
  /\ create_apa_citation unicode_fragment
       (paper (u "To be continued...") [u "Jane Smith"] 2015)
     = Return (u "Smith, J. (2015). To Be Continued...")
  /\ endswith (u "Smith, J. (2015). To Be Continued...") (u "..") = true.
Proof. repeat split; reflexivity. Qed.

(** C2, amended. For a summary with at least one author, the citation ends
    with the title as cased by the title-casing step, less one trailing
    period if it has one, followed by the citation's own period; it ends in
    two periods exactly when the cased title does. *)
Theorem citation_strips_one_trailing_period
    (U : Unicode) (summary : PaperSummary) :
  authors summary <> [] ->
  exists authors_string,
    create_apa_citation U summary
    = (year <- format_int U (year summary) ;;
       Return (authors_string ++ u " (" ++ year ++ u "). "
                 ++ remove_trailing_period (title_case U (title summary))
                 ++ u "."))%result
    /\ (exceeds_max_str_digits U (year summary) = false ->
        create_apa_citation U summary
        = Return (authors_string ++ u " (" ++ decimal (year summary)
                    ++ u "). "
                    ++ remove_trailing_period (title_case U (title summary))
                    ++ u "."))
    /\ (forall t, title_case U (title summary) = t ++ u "." ->
          remove_trailing_period (title_case U (title summary)) = t)
    /\ (endswith (title_case U (title summary)) (u ".") = false ->
          remove_trailing_period (title_case U (title summary))
          = title_case U (title summary))
    /\ (forall citation,
          create_apa_citation U summary = Return citation ->
          endswith citation (u "..")
          = endswith (title_case U (title summary)) (u "..")).
Proof.
  intros Hne.
  destruct (create_apa_citation_with_authors U summary Hne)
    as [fa [js [_ [_ [_ Hc]]]]].
  exists js. split; [exact Hc |]. split; [| split; [| split]].
  - intros Hyear. rewrite Hc, (format_int_within_limit U _ Hyear).
    reflexivity.
  - intros t ->. apply remove_trailing_period_snoc.
  - apply remove_trailing_period_keep.
  - intros citation Hcit. rewrite Hc in Hcit.
    destruct (format_int U (year summary)) as [y |]; [| discriminate].
    cbn [bind] in Hcit. injection Hcit as <-.
    change (u "..") with [PERIOD; PERIOD].
    rewrite <- (double_period_after_strip
                  (js ++ u " (" ++ y ++ u ").")
                  (title_case U (title summary))).
    f_equal. rewrite <- !app_assoc. reflexivity.
Qed.

Lemma citation_strips_one_trailing_period_witness :
  authors (paper (u "attention is all you need.") [u "Jane Smith"] 2017) <> []
  /\ exists citation,
       create_apa_citation unicode_fragment
         (paper (u "attention is all you need.") [u "Jane Smith"] 2017)
       = Return citation
       /\ endswith citation (u "..") = false.
Proof.
  split; [discriminate |].
  destruct (citation_strips_one_trailing_period unicode_fragment
              (paper (u "attention is all you need.") [u "Jane Smith"] 2017)
              ltac:(discriminate))
    as [js [_ [Hc [_ [_ Hend]]]]].
  eexists. split; [exact (Hc eq_refl) |].
  rewrite (Hend _ (Hc eq_refl)). reflexivity.
Defined.

(** C4. With the single author "Ludwig van Beethoven" the formatted author
    is "van Beethoven, L." (surname "van Beethoven", initials "L."), and the
    citation starts with it. *)
Theorem citation_of_ludwig_van_beethoven
    (U : Unicode) (summary : PaperSummary) :
  authors summary = [u "Ludwig van Beethoven"] ->
  format_author U (u "Ludwig van Beethoven") = Return (u "van Beethoven, L.")
  /\ create_apa_citation U summary
     = (year <- format_int U (year summary) ;;
        Return (u "van Beethoven, L." ++ u " (" ++ year ++ u "). "
                  ++ remove_trailing_period (title_case U (title summary))
                  ++ u "."))%result.
Proof.
  intros Ha. split; [reflexivity |].
  unfold create_apa_citation. rewrite Ha. reflexivity.
Qed.

Lemma citation_of_ludwig_van_beethoven_witness :
  authors (paper (u "symphony no. 9") [u "Ludwig van Beethoven"] 1824)
  = [u "Ludwig van Beethoven"]
  /\ create_apa_citation unicode_fragment
       (paper (u "symphony no. 9") [u "Ludwig van Beethoven"] 1824)
     = Return (u "van Beethoven, L. (1824). Symphony No. 9.").
Proof.
  split; [reflexivity |].
  exact (proj2 (citation_of_ludwig_van_beethoven unicode_fragment
                  (paper (u "symphony no. 9") [u "Ludwig van Beethoven"] 1824)
                  eq_refl)).
Defined.

(** C5. The formatted authors are joined as follows: one author is used as
    it is; two are joined by " & "; three or more are joined by ", " with
    ", & " before the last.  The citation of any summary with authors starts
    with the formatted authors joined this way, and the authors
    "Jane Smith", "John Doe" give "Smith, J. & Doe, J." while "A B", "C D",
    "E F" give "B, A., D, C., & F, E.". *)
Theorem authors_are_joined_apa_style (U : Unicode) :
  (forall a, join_authors [a] = Return a)
  /\ (forall a b, join_authors [a; b] = Return (a ++ u " & " ++ b))
  /\ (forall a b c rest,
        join_authors (a :: b :: c :: rest)
        = Return (join (u ", ") (removelast (a :: b :: c :: rest))
                    ++ u ", & " ++ last (a :: b :: c :: rest) []))
  /\ (forall summary,
        authors summary = []
        \/ exists formatted_authors authors_string,
             map_result (format_author U) (authors summary)
             = Return formatted_authors
             /\ join_authors formatted_authors = Return authors_string
             /\ create_apa_citation U summary
                = (y <- format_int U (year summary) ;;
                   Return (authors_string ++ u " (" ++ y ++ u "). "
                             ++ remove_trailing_period
                                  (title_case U (title summary))
                             ++ u "."))%result)
  /\ (forall title year,
        create_apa_citation U
          (paper title [u "Jane Smith"; u "John Doe"] year)
        = (y <- format_int U year ;;
           Return (u "Smith, J. & Doe, J." ++ u " (" ++ y ++ u "). "
                     ++ remove_trailing_period (title_case U title)
                     ++ u "."))%result)
  /\ (forall title year,
        create_apa_citation U (paper title [u "A B"; u "C D"; u "E F"] year)
        = (y <- format_int U year ;;
           Return (u "B, A., D, C., & F, E." ++ u " (" ++ y ++ u "). "
                     ++ remove_trailing_period (title_case U title)
                     ++ u "."))%result).
Proof.
  split; [exact join_authors_one |].
  split; [exact join_authors_two |].
  split; [exact join_authors_many |].
  split; [| split; reflexivity].
  intros summary.
  destruct (authors summary) as [| first others] eqn:Ha; [left; reflexivity |].
  right.
  destruct (create_apa_citation_with_authors U summary)
    as [fa [js [Hfa [_ [Hjs Hc]]]]]; [congruence |].
  exists fa, js. rewrite <- Ha. auto.
Qed.

Lemma exceeds_default_limit :
  exceeds_max_str_digits unicode_fragment (10 ^ 4300) = true.
Proof.
  unfold exceeds_max_str_digits.
  change (int_max_str_digits unicode_fragment) with 4300%N.
  change (Z.of_N 4300) with 4300%Z.
  assert (Hpos : (0 <= 10 ^ 4300)%Z) by (apply Z.pow_nonneg; discriminate).
  rewrite (Z.abs_eq _ Hpos), Z.leb_refl, andb_true_r, andb_true_r.
  apply Z.leb_le. apply Z.pow_le_mono_r; [reflexivity | discriminate].
Qed.

(** C9, refuted as stated. Under the default limit of CPython, a year of
    4301 digits cannot be formatted: [create_apa_citation] raises
    [ValueError] and [create_paper_list] writes the placeholder. *)
Lemma citation_of_a_year_beyond_the_limit :
  create_apa_citation unicode_fragment
    (paper (u "Deep time") [u "Jane Smith"] (10 ^ 4300))
  = Raise ValueError
  /\ create_paper_list unicode_fragment
       [paper (u "Deep time") [u "Jane Smith"] (10 ^ 4300)]
     = paper_list_heading ++ u "- Error in citation: Deep time" ++ [NEWLINE].
Proof.
  assert (Hraise : create_apa_citation unicode_fragment
                     (paper (u "Deep time") [u "Jane Smith"] (10 ^ 4300))
                   = Raise ValueError)
    by exact (create_apa_citation_raises unicode_fragment
                (paper (u "Deep time") [u "Jane Smith"] (10 ^ 4300))
                exceeds_default_limit).
  split; [exact Hraise |].
  rewrite create_paper_list_entries. cbn [map concat].
  unfold paper_list_entry. rewrite Hraise, app_nil_r. reflexivity.
Qed.

(** C9, amended. For every summary whose year is within the interpreter's
    limit on the conversion of integers to strings, [create_apa_citation]
    returns a string, so [create_paper_list] does not take its [except]
    branch for it: its line is "- " followed by the citation.  The only
    exception [create_apa_citation] raises is the [ValueError] of a year
    beyond that limit; no index is ever out of range. *)
Theorem create_apa_citation_raises_only_beyond_the_limit (U : Unicode) :
  (forall summary,
     exceeds_max_str_digits U (year summary) = false ->
     exists citation,
       create_apa_citation U summary = Return citation
       /\ paper_list_entry U summary = u "- " ++ citation ++ [NEWLINE])
  /\ (forall summaries,
        forallb (fun summary =>
                   negb (exceeds_max_str_digits U (year summary)))
          summaries = true ->
        exists citations,
          map_result (create_apa_citation U) summaries = Return citations
          /\ create_paper_list U summaries
             = u "## List of Reviewed Papers" ++ [NEWLINE; NEWLINE]
                 ++ concat (map (fun citation =>
                                   u "- " ++ citation ++ [NEWLINE])
                              citations))
  /\ (forall summary e,
        create_apa_citation U summary = Raise e ->
        e = ValueError /\ exceeds_max_str_digits U (year summary) = true).
Proof.
  assert (Hone : forall summary,
             exceeds_max_str_digits U (year summary) = false ->
             exists citation,
               create_apa_citation U summary = Return citation
               /\ paper_list_entry U summary
                  = u "- " ++ citation ++ [NEWLINE]).
  { intros summary Hyear.
    destruct (create_apa_citation_returns U summary Hyear) as [c Hc].
    exists c. split; [exact Hc |].
    unfold paper_list_entry. rewrite Hc. reflexivity. }
  split; [exact Hone |]. split.
  - intros summaries Hyears. rewrite create_paper_list_entries.
    change (u "## List of Reviewed Papers" ++ [NEWLINE; NEWLINE] ++ ?x)
      with (paper_list_heading ++ x).
    induction summaries as [| s rest IH].
    + exists []. split; reflexivity.
    + simpl in Hyears. apply andb_true_iff in Hyears.
      destruct Hyears as [Hs Hrest]. apply negb_true_iff in Hs.
      destruct (IH Hrest) as [cs [Hcs Heq]].
      destruct (Hone s Hs) as [c [Hc He]].
      exists (c :: cs). split.
      * simpl. rewrite Hc. simpl. rewrite Hcs. reflexivity.
      * apply app_inv_head in Heq. simpl. rewrite He, Heq. reflexivity.
  - intros summary e Hraise.
    destruct (exceeds_max_str_digits U (year summary)) eqn:Hyear.
    + rewrite (create_apa_citation_raises U summary Hyear) in Hraise.
      injection Hraise as <-. auto.
    + destruct (create_apa_citation_returns U summary Hyear) as [c Hc].
      congruence.
Qed.

Lemma create_apa_citation_raises_only_beyond_the_limit_witness :
  exceeds_max_str_digits unicode_fragment
    (year (paper (u "on computable numbers") [u "Alan Turing"] 1936)) = false
  /\ exists citation,
       create_apa_citation unicode_fragment
         (paper (u "on computable numbers") [u "Alan Turing"] 1936)
       = Return citation
       /\ paper_list_entry unicode_fragment
            (paper (u "on computable numbers") [u "Alan Turing"] 1936)
          = u "- " ++ citation ++ [NEWLINE].
Proof.
  split; [reflexivity |].
  apply (proj1 (create_apa_citation_raises_only_beyond_the_limit
                  unicode_fragment)).
  reflexivity.
Defined.

(** ** Retrying *)

Lemma retry_stop_after_three {A} (fn : nat -> result A) (extra : nat) :
  Tenacity.retry (Tenacity.stop_after_attempt 3) fn (3 + extra)
  = Some
      match fn 1%nat with
      | Return a => (Return a, [Tenacity.DoAttempt 1])
      | Raise _ =>
          match fn 2%nat with
          | Return a =>
              (Return a,
               [Tenacity.DoAttempt 1; Tenacity.DoSleep 1;
                Tenacity.DoAttempt 2])
          | Raise _ =>
              match fn 3%nat with
              | Return a =>
                  (Return a,
                   [Tenacity.DoAttempt 1; Tenacity.DoSleep 1;
                    Tenacity.DoAttempt 2; Tenacity.DoSleep 2;
                    Tenacity.DoAttempt 3])
              | Raise e =>
                  (Raise (RetryError e),
                   [Tenacity.DoAttempt 1; Tenacity.DoSleep 1;
                    Tenacity.DoAttempt 2; Tenacity.DoSleep 2;
                    Tenacity.DoAttempt 3])
              end
          end
      end.
Proof.
  unfold Tenacity.retry. simpl.
  destruct (fn 1%nat); [reflexivity |].
  destruct (fn 2%nat); [reflexivity |].
  destruct (fn 3%nat); reflexivity.
Qed.

Lemma retry_three_attempts {A} (fn : nat -> result A) (extra : nat) :
  three_attempts fn
    (Tenacity.retry (Tenacity.stop_after_attempt 3) fn (3 + extra)).
Proof.
  unfold three_attempts. rewrite retry_stop_after_three.
  match goal with |- context [Some ?run] => exists (fst run), (snd run) end.
  split; [rewrite <- surjective_pairing; reflexivity |]. split; [| split].
  - unfold Tenacity.attempts.
    destruct (fn 1%nat); [simpl; lia |].
    destruct (fn 2%nat); [simpl; lia |].
    destruct (fn 3%nat); simpl; lia.
  - intros k a Hk Hfail Hret.
    assert (Hcases : k = 1%nat \/ k = 2%nat \/ k = 3%nat) by lia.
    destruct Hcases as [-> | [-> | ->]].
    + rewrite Hret. auto.
    + destruct (Hfail 1%nat ltac:(lia)) as [e1 ->].
      rewrite Hret. auto.
    + destruct (Hfail 1%nat ltac:(lia)) as [e1 ->].
      destruct (Hfail 2%nat ltac:(lia)) as [e2 ->].
      rewrite Hret. auto.
  - intros e1 e2 e3 -> -> ->. auto.
Qed.

(** C6, refuted as stated. With the endpoint down, the three runs of
    [analyze_pdf] fail with error 503 and the caller receives a
    [RetryError], not that error; likewise for [synthesize_reviews]. *)
Lemma exhausted_retries_raise_retry_error :
  analyze_pdf_body (sample_world four_files is_corrupt true)
    (u "text") (u "a.pdf") 3
  = Raise (CollaboratorError 503)
  /\ option_map fst
       (analyze_pdf (sample_world four_files is_corrupt true) 3
          (u "text") (u "a.pdf"))
     = Some (Raise (RetryError (CollaboratorError 503)))
  /\ option_map fst
       (analyze_pdf (sample_world four_files is_corrupt true) 3
          (u "text") (u "a.pdf"))
     <> Some (Raise (CollaboratorError 503))
  /\ option_map fst
       (synthesize_reviews (sample_world four_files is_corrupt true) 3
          [paper (u "a.pdf") [u "Jane Smith"] 2020])
     = Some (Raise (RetryError (CollaboratorError 503))).
Proof. repeat split; try reflexivity. discriminate. Qed.

(** C6, amended. [analyze_pdf] and [synthesize_reviews] run their body at
    most three times per call: the first run that returns ends the call
    with its value (so two failures followed by a success succeed), and
    when all three runs fail the caller receives a [RetryError] that wraps
    the error of the third run. *)
Theorem analysis_and_synthesis_make_three_attempts
    (W : World) (extra : nat) :
  (forall text filename,
     three_attempts (analyze_pdf_body W text filename)
       (analyze_pdf W (3 + extra) text filename))
  /\ (forall summaries,
        three_attempts (synthesize_reviews_body W summaries)
          (synthesize_reviews W (3 + extra) summaries)).
Proof.
  split; intros; apply retry_three_attempts.
Qed.

(** Two failures, then a success: [b.pdf] in the sample world. *)
Example analyze_pdf_succeeds_on_third_attempt :
  analyze_pdf (sample_world four_files is_corrupt false) 3
    (u "text") (u "b.pdf")
  = Some (Return (paper (u "b.pdf") [u "Jane Smith"] 2020),
          [Tenacity.DoAttempt 1; Tenacity.DoSleep 1;
           Tenacity.DoAttempt 2; Tenacity.DoSleep 2;
           Tenacity.DoAttempt 3]).
Proof. reflexivity. Qed.

(** ** The run of [main] *)

Lemma process_pdf_returns (W : World) (extra : nat) (path : str) :
  exists future, process_pdf W (3 + extra) path = Some future.
Proof.
  unfold process_pdf. destruct (extract_text_from_pdf W path); [| eauto].
  unfold analyze_pdf. rewrite retry_stop_after_three. simpl. eauto.
Qed.

Lemma submit_all_returns (W : World) (extra : nat) (paths : list str) :
  exists futures,
    submit_all W (3 + extra) paths = Some futures
    /\ Forall2 (fun path future => process_pdf W (3 + extra) path = Some future)
         paths futures.
Proof.
  induction paths as [| path rest [futures [Hsub Hall]]].
  - exists []. split; [reflexivity | constructor].
  - destruct (process_pdf_returns W extra path) as [future Hf].
    exists (future :: futures). split.
    + cbn [submit_all]. rewrite Hf, Hsub. reflexivity.
    + constructor; assumption.
Qed.

Lemma collect_successes (completed : list (result PaperSummary)) :
  collect completed = successes completed.
Proof.
  unfold collect.
  enough (H : forall acc,
             fold_left
               (fun summaries future =>
                  match future with
                  | Return summary => summaries ++ [summary]
                  | Raise _ => summaries
                  end) completed acc
             = acc ++ successes completed) by apply (H []).
  induction completed as [| future rest IH]; intros acc; simpl.
  - symmetry. apply app_nil_r.
  - rewrite IH. destruct future; simpl; [| reflexivity].
    rewrite <- app_assoc. reflexivity.
Qed.

Lemma synthesize_reviews_returns (W : World) (extra : nat)
    (summaries : list PaperSummary) :
  exists outcome events,
    synthesize_reviews W (3 + extra) summaries = Some (outcome, events).
Proof.
  destruct (retry_three_attempts (synthesize_reviews_body W summaries) extra)
    as [outcome [events [H _]]].
  eauto.
Qed.

Lemma write_output_succeeds (W : World) (name review paper_list : str) :
  open_w W name = Return tt ->
  (forall before text, file_write W before text = Done) ->
  (forall text, file_close W text = Done) ->
  write_output W name review paper_list
  = (Some (name, (review ++ [NEWLINE; NEWLINE]) ++ paper_list), Return tt).
Proof.
  intros Hopen Hwrite Hclose. unfold write_output.
  rewrite Hopen, !Hwrite, Hclose. reflexivity.
Qed.

Lemma entries_as_lines (U : Unicode) (summaries : list PaperSummary) :
  exists lines,
    Forall2 (entry_line U) summaries lines
    /\ concat (map (paper_list_entry U) summaries)
       = concat (map (fun line => u "- " ++ line ++ [NEWLINE]) lines).
Proof.
  induction summaries as [| s rest [lines [Hall Heq]]].
  - exists []. split; [constructor | reflexivity].
  - assert (Hhead : forall line,
               paper_list_entry U s = u "- " ++ line ++ [NEWLINE] ->
               concat (map (paper_list_entry U) (s :: rest))
               = concat (map (fun line => u "- " ++ line ++ [NEWLINE])
                           (line :: lines))).
    { intros line Hline. cbn [map concat]. rewrite Hline, Heq. reflexivity. }
    destruct (create_apa_citation U s) as [citation | e] eqn:Hc.
    + exists (citation :: lines). split.
      * constructor; [left; exact Hc | exact Hall].
      * apply Hhead. unfold paper_list_entry. rewrite Hc. reflexivity.
    + exists ((u "Error in citation: " ++ title s) :: lines). split.
      * constructor; [right; eauto | exact Hall].
      * apply Hhead. unfold paper_list_entry. rewrite Hc.
        rewrite <- !app_assoc. reflexivity.
Qed.

(** The paths of [main], one disjunct for each way the run can end. *)
Lemma main_cases (W : World) (extra : nat) :
  exists run,
    main W (3 + extra) = Some run
    /\ ((exists e, find_pdf_folder W = Raise e)
        /\ run = Build_Run FailedUnexpected [] None
        \/ exists pdf_folder,
            find_pdf_folder W = Return pdf_folder
            /\ ((exists e, listdir W pdf_folder = Raise e)
                /\ run = Build_Run FailedUnexpected [] None
                \/ exists names futures,
                    listdir W pdf_folder = Return names
                    /\ Forall2
                         (fun path future =>
                            process_pdf W (3 + extra) path = Some future)
                         (map (path_join pdf_folder) (filter is_pdf names))
                         futures
                    /\ (filter is_pdf names = []
                        /\ run = Build_Run FailedNoInput [] None
                        \/ filter is_pdf names <> []
                           /\ (successes (as_completed W futures) = []
                               /\ run = Build_Run FailedNoOutput [] None
                               \/ successes (as_completed W futures) <> []
                                  /\ collected run
                                     = successes (as_completed W futures)
                                  /\ ((exists e events,
                                         synthesize_reviews W (3 + extra)
                                           (collected run)
                                         = Some (Raise e, events))
                                      /\ state run = FailedUnexpected
                                      /\ output_file run = None
                                      \/ exists review events written,
                                          synthesize_reviews W (3 + extra)
                                            (collected run)
                                          = Some (Return review, events)
                                          /\ write_output W
                                               (u "literature_review_"
                                                  ++ now W ++ u ".md")
                                               review
                                               (create_paper_list (unicode W)
                                                  (collected run))
                                             = written
                                          /\ output_file run = fst written
                                          /\ state run
                                             = match snd written with
                                               | Return _ => Completed
                                               | Raise _ => FailedUnexpected
                                               end))))).
Proof.
  unfold main.
  destruct (find_pdf_folder W) as [pdf_folder | e] eqn:Hfind;
    [| eexists; split; [reflexivity | left; eauto]].
  destruct (listdir W pdf_folder) as [names | e] eqn:Hlist;
    [| eexists; split; [reflexivity |];
       right; exists pdf_folder; split; [reflexivity | left; eauto]].
  destruct (submit_all_returns W extra
              (map (path_join pdf_folder) (filter is_pdf names)))
    as [futures [Hsub Hall]].
  destruct (filter is_pdf names) as [| f fs] eqn:Hpdf.
  { eexists; split; [reflexivity |].
    right; exists pdf_folder; split; [reflexivity | right].
    exists names, futures. rewrite Hpdf. auto. }
  rewrite Hsub, collect_successes.
  destruct (successes (as_completed W futures)) as [| s ss] eqn:Hsucc.
  { eexists; split; [reflexivity |].
    right; exists pdf_folder; split; [reflexivity | right].
    exists names, futures. rewrite Hpdf. repeat split; auto.
    right. split; [discriminate | left; auto]. }
  destruct (synthesize_reviews_returns W extra (s :: ss))
    as [[review | e] [events Hsyn]]; rewrite Hsyn.
  - destruct (write_output W (u "literature_review_" ++ now W ++ u ".md")
                review (create_paper_list (unicode W) (s :: ss)))
      as [file written] eqn:Hwrite.
    exists (Build_Run
              match written with
              | Return _ => Completed
              | Raise _ => FailedUnexpected
              end (s :: ss) file).
    split; [destruct written; reflexivity |].
    right; exists pdf_folder; split; [reflexivity | right].
    exists names, futures. rewrite Hpdf, Hsucc.
    split; [exact Hlist |]. split; [exact Hall |].
    right. split; [discriminate | right].
    split; [discriminate |]. split; [reflexivity | right].
    cbn [collected state output_file].
    exists review, events, (file, written).
    rewrite Hsyn, Hwrite. auto.
  - exists (Build_Run FailedUnexpected (s :: ss) None).
    split; [reflexivity |].
    right; exists pdf_folder; split; [reflexivity | right].
    exists names, futures. rewrite Hpdf, Hsucc.
    split; [exact Hlist |]. split; [exact Hall |].
    right. split; [discriminate | right].
    split; [discriminate |]. split; [reflexivity | left].
    cbn [collected state output_file]. rewrite Hsyn. eauto.
Qed.

Lemma successes_as_completed (W : World)
    (futures : list (result PaperSummary)) :
  (forall l, Permutation (as_completed W l) l) ->
  Permutation (successes (as_completed W futures)) (successes futures).
Proof.
  intros Hperm. unfold successes. apply Permutation_flat_map, Hperm.
Qed.

Lemma successes_of_failures (W : World) (fuel : nat) (paths : list str)
    (futures : list (result PaperSummary)) :
  Forall2 (fun path future => process_pdf W fuel path = Some future)
    paths futures ->
  (forall path, In path paths ->
     exists e, process_pdf W fuel path = Some (Raise e)) ->
  successes futures = [].
Proof.
  induction 1 as [| path future paths futures Hf _ IH]; intros Hfail;
    [reflexivity |].
  destruct (Hfail path (or_introl eq_refl)) as [e He].
  rewrite He in Hf. injection Hf as <-. simpl.
  apply IH. intros p Hp. apply Hfail. right. exact Hp.
Qed.

Lemma success_has_a_file (W : World) (fuel : nat) (paths : list str)
    (futures : list (result PaperSummary)) (summary : PaperSummary) :
  Forall2 (fun path future => process_pdf W fuel path = Some future)
    paths futures ->
  In summary (successes futures) ->
  exists path, In path paths /\ process_pdf W fuel path = Some (Return summary).
Proof.
  induction 1 as [| path future paths futures Hf _ IH]; simpl;
    [tauto |].
  intros Hin. apply in_app_or in Hin. destruct Hin as [Hin | Hin].
  - destruct future as [s | e]; simpl in Hin; [| tauto].
    destruct Hin as [-> | []]. exists path. auto.
  - destruct (IH Hin) as [p [Hp Hproc]]. exists p. auto.
Qed.

(** C7. When the folder is found and listed, every file's outcome is
    collected on its own: the summaries collected are those of the files
    that were processed successfully (in completion order), whatever
    happened to the others, and the run goes on to the synthesis.  When the
    synthesis, the writes and the close succeed, the run is completed and
    the output is the review, an empty line, the heading and one bulleted
    line per collected summary: its citation, or the placeholder if the
    citation raised.  With four files of which three succeed and one fails
    there are exactly three such lines. *)
Theorem failing_file_is_dropped_alone
    (W : World) (extra : nat) (pdf_folder : str) (names : list str) :
  (forall futures, Permutation (as_completed W futures) futures) ->
  find_pdf_folder W = Return pdf_folder ->
  listdir W pdf_folder = Return names ->
  exists futures run,
    Forall2 (fun path future => process_pdf W (3 + extra) path = Some future)
      (map (path_join pdf_folder) (filter is_pdf names)) futures
    /\ main W (3 + extra) = Some run
    /\ Permutation (collected run) (successes futures)
    /\ (successes futures <> [] ->
          state run = Completed \/ state run = FailedUnexpected)
    /\ (forall review events,
          successes futures <> [] ->
          synthesize_reviews W (3 + extra) (collected run)
          = Some (Return review, events) ->
          open_w W (u "literature_review_" ++ now W ++ u ".md") = Return tt ->
          (forall before text, file_write W before text = Done) ->
          (forall text, file_close W text = Done) ->
          exists lines,
            Forall2 (entry_line (unicode W)) (collected run) lines
            /\ length lines = length (successes futures)
            /\ (length futures = 4%nat ->
                length (successes futures) = 3%nat ->
                exists line1 line2 line3, lines = [line1; line2; line3])
            /\ state run = Completed
            /\ output_file run
               = Some (u "literature_review_" ++ now W ++ u ".md",
                       review ++ [NEWLINE; NEWLINE]
                         ++ u "## List of Reviewed Papers"
                         ++ [NEWLINE; NEWLINE]
                         ++ concat (map (fun line =>
                                           u "- " ++ line ++ [NEWLINE])
                                      lines))).
Proof.
  intros Hperm Hfind Hlist.
  destruct (main_cases W extra) as [run [Hmain Hcases]].
  destruct Hcases as [[[e He] _] | [folder' [Hfind' Hcases]]];
    [congruence |].
  assert (folder' = pdf_folder) by congruence. subst folder'.
  destruct Hcases as [[[e He] _] | [names' [futures [Hlist' [Hall Hcases]]]]];
    [congruence |].
  assert (names' = names) by congruence. subst names'.
  exists futures, run. split; [exact Hall |]. split; [exact Hmain |].
  pose proof (successes_as_completed W futures Hperm) as Hsucc.
  destruct Hcases as [[Hpdf ->] | [Hpdf Hcases]].
  { rewrite Hpdf in Hall. inversion Hall. subst. simpl.
    repeat split; try constructor; congruence. }
  destruct Hcases as [[Hnone ->] | [Hsome [Hcoll Hcases]]].
  { rewrite Hnone in Hsucc. apply Permutation_nil in Hsucc.
    rewrite Hsucc. simpl.
    repeat split; try constructor; congruence. }
  rewrite <- Hcoll in Hsucc.
  split; [exact Hsucc |]. split.
  - intros _.
    destruct Hcases as [[_ [-> _]] | [review [events [written [_ [_ [_ ->]]]]]]];
      [auto |].
    destruct (snd written); auto.
  - intros review events _ Hsyn Hopen Hwrite Hclose.
    destruct Hcases
      as [[[e [ev Hraise]] _] | [review' [ev [written [Hsyn' [Hw [Hout Hst]]]]]]];
      [congruence |].
    assert (review' = review) by congruence. subst review'.
    rewrite (write_output_succeeds W _ _ _ Hopen Hwrite Hclose) in Hw.
    subst written. simpl in Hout, Hst.
    destruct (entries_as_lines (unicode W) (collected run))
      as [lines [Hlines Heq]].
    assert (Hlen : length lines = length (successes futures)).
    { rewrite <- (Forall2_length Hlines). apply (Permutation_length Hsucc). }
    exists lines. split; [exact Hlines |]. split; [exact Hlen |].
    split; [| split; [exact Hst |]].
    + intros _ Hthree. rewrite Hthree in Hlen.
      destruct lines as [| l1 [| l2 [| l3 [| l4 rest]]]]; try discriminate.
      eauto.
    + rewrite Hout, create_paper_list_entries, Heq.
      unfold paper_list_heading. rewrite <- !app_assoc. reflexivity.
Qed.

Lemma failing_file_is_dropped_alone_witness :
  (forall futures,
     Permutation (as_completed (sample_world four_files is_corrupt false)
                    futures) futures)
  /\ find_pdf_folder (sample_world four_files is_corrupt false)
     = Return (u "/app/PDF")
  /\ listdir (sample_world four_files is_corrupt false) (u "/app/PDF")
     = Return four_files
  /\ exists futures run lines,
       main (sample_world four_files is_corrupt false) 3 = Some run
       /\ length futures = 4%nat
       /\ length (successes futures) = 3%nat
       /\ length lines = 3%nat
       /\ state run = Completed
       /\ output_file run
          = Some (u "literature_review_20240101_120000.md",
                  u "A review." ++ [NEWLINE; NEWLINE]
                    ++ u "## List of Reviewed Papers" ++ [NEWLINE; NEWLINE]
                    ++ concat (map (fun line => u "- " ++ line ++ [NEWLINE])
                                 lines))
       /\ output_file run
          = Some (u "literature_review_20240101_120000.md",
                  u "A review." ++ [NEWLINE; NEWLINE]
                    ++ u "## List of Reviewed Papers" ++ [NEWLINE; NEWLINE]
                    ++ u "- Smith, J. (2020). C.pdf." ++ [NEWLINE]
                    ++ u "- Smith, J. (2020). B.pdf." ++ [NEWLINE]
                    ++ u "- Smith, J. (2020). A.pdf." ++ [NEWLINE]).
Proof.
  assert (Hperm : forall futures,
             Permutation (as_completed (sample_world four_files is_corrupt false)
                            futures) futures).
  { intros futures. symmetry. apply Permutation_rev. }
  split; [exact Hperm |]. split; [reflexivity |]. split; [reflexivity |].
  destruct (failing_file_is_dropped_alone
              (sample_world four_files is_corrupt false) 0
              (u "/app/PDF") four_files Hperm eq_refl eq_refl)
    as [futures [run [Hall [Hmain [Hcoll [_ Hout]]]]]].
  assert (Hrun : Some run
                 = main (sample_world four_files is_corrupt false) 3)
    by (symmetry; exact Hmain).
  vm_compute in Hrun. injection Hrun as Hrun.
  assert (Hfour : length futures = 4%nat)
    by (apply Forall2_length in Hall; rewrite <- Hall; reflexivity).
  assert (Hthree : length (successes futures) = 3%nat)
    by (rewrite <- (Permutation_length Hcoll), Hrun; reflexivity).
  destruct (Hout (u "A review.") [Tenacity.DoAttempt 1])
    as [lines [_ [Hlen [_ [Hstate Hfile]]]]].
  { intros Hnone. rewrite Hnone in Hthree. discriminate. }
  { rewrite Hrun. reflexivity. }
  { reflexivity. }
  { reflexivity. }
  { reflexivity. }
  exists futures, run, lines.
  split; [exact Hmain |]. split; [exact Hfour |]. split; [exact Hthree |].
  split; [exact (eq_trans Hlen Hthree) |]. split; [exact Hstate |].
  split; [exact Hfile | rewrite Hrun; reflexivity].
Defined.

(** The sample run: three summaries, completed in reverse order, and a
    list of three entries. *)
Example main_with_one_corrupt_file :
  main (sample_world four_files is_corrupt false) 3
  = Some
      {| state := Completed;
         collected := [paper (u "c.pdf") [u "Jane Smith"] 2020;
                       paper (u "b.pdf") [u "Jane Smith"] 2020;
                       paper (u "a.pdf") [u "Jane Smith"] 2020];
         output_file :=
           Some (u "literature_review_20240101_120000.md",
                 u "A review." ++ [NEWLINE; NEWLINE]
                   ++ u "## List of Reviewed Papers" ++ [NEWLINE; NEWLINE]
                   ++ u "- Smith, J. (2020). C.pdf." ++ [NEWLINE]
                   ++ u "- Smith, J. (2020). B.pdf." ++ [NEWLINE]
                   ++ u "- Smith, J. (2020). A.pdf." ++ [NEWLINE]) |}.
Proof. reflexivity. Qed.

(** C8. [main] leaves an output file only if some file was processed
    successfully; without any [.pdf] name in the folder the run ends at
    [FailedNoInput], and when every file fails it ends at [FailedNoOutput],
    in both cases without an output file. *)
Theorem output_needs_a_summary (W : World) (extra : nat) :
  (forall futures, Permutation (as_completed W futures) futures) ->
  exists run,
    main W (3 + extra) = Some run
    /\ (output_file run <> None ->
          collected run <> []
          /\ exists pdf_folder names f summary,
               find_pdf_folder W = Return pdf_folder
               /\ listdir W pdf_folder = Return names
               /\ In f (filter is_pdf names)
               /\ process_pdf W (3 + extra) (path_join pdf_folder f)
                  = Some (Return summary))
    /\ (forall pdf_folder names,
          find_pdf_folder W = Return pdf_folder ->
          listdir W pdf_folder = Return names ->
          filter is_pdf names = [] ->
          state run = FailedNoInput /\ output_file run = None)
    /\ (forall pdf_folder names,
          find_pdf_folder W = Return pdf_folder ->
          listdir W pdf_folder = Return names ->
          filter is_pdf names <> [] ->
          (forall f, In f (filter is_pdf names) ->
             exists e,
               process_pdf W (3 + extra) (path_join pdf_folder f)
               = Some (Raise e)) ->
          state run = FailedNoOutput /\ output_file run = None).
Proof.
  intros Hperm.
  destruct (main_cases W extra) as [run [Hmain Hcases]].
  exists run. split; [exact Hmain |].
  destruct Hcases as [[[e He] ->] | [pdf_folder [Hfind Hcases]]].
  { simpl. repeat split; try congruence; intros; congruence. }
  destruct Hcases as [[[e He] ->] | [names [futures [Hlist [Hall Hcases]]]]].
  { simpl. repeat split; try congruence; intros; congruence. }
  pose proof (successes_as_completed W futures Hperm) as Hsucc.
  assert (Hsame : forall folder' names',
             find_pdf_folder W = Return folder' ->
             listdir W folder' = Return names' ->
             folder' = pdf_folder /\ names' = names).
  { intros folder' names' H1 H2.
    assert (folder' = pdf_folder) by congruence. subst folder'.
    split; congruence. }
  assert (Hallfail : forall folder' names',
             find_pdf_folder W = Return folder' ->
             listdir W folder' = Return names' ->
             (forall f, In f (filter is_pdf names') ->
                exists e,
                  process_pdf W (3 + extra) (path_join folder' f)
                  = Some (Raise e)) ->
             successes (as_completed W futures) = []).
  { intros folder' names' H1 H2 Hfail.
    destruct (Hsame _ _ H1 H2) as [-> ->].
    rewrite (successes_of_failures W (3 + extra) _ futures Hall) in Hsucc.
    - apply Permutation_sym, Permutation_nil in Hsucc. exact Hsucc.
    - intros path Hpath. apply in_map_iff in Hpath.
      destruct Hpath as [f [<- Hf]]. apply Hfail, Hf. }
  destruct Hcases as [[Hpdf ->] | [Hpdf Hcases]].
  { simpl. split; [congruence |]. split.
    - auto.
    - intros folder' names' H1 H2 Hne.
      destruct (Hsame _ _ H1 H2) as [-> ->]. congruence. }
  destruct Hcases as [[Hnone ->] | [Hsome [Hcoll Hcases]]].
  { simpl. split; [congruence |]. split.
    - intros folder' names' H1 H2 Hempty.
      destruct (Hsame _ _ H1 H2) as [-> ->]. congruence.
    - auto. }
  split; [| split].
  - intros _. split; [congruence |].
    destruct (successes (as_completed W futures)) as [| s ss] eqn:E;
      [congruence |].
    assert (Hin : In s (successes futures)).
    { apply (Permutation_in s Hsucc). left. reflexivity. }
    destruct (success_has_a_file W (3 + extra) _ futures s Hall Hin)
      as [path [Hpath Hproc]].
    apply in_map_iff in Hpath. destruct Hpath as [f [<- Hf]].
    exists pdf_folder, names, f, s. auto.
  - intros folder' names' H1 H2 Hempty.
    destruct (Hsame _ _ H1 H2) as [-> ->]. congruence.
  - intros folder' names' H1 H2 _ Hfail.
    rewrite (Hallfail _ _ H1 H2 Hfail) in Hsome. congruence.
Qed.

Lemma output_needs_a_summary_witness :
  (forall futures,
     Permutation (as_completed (sample_world four_files is_corrupt true)
                    futures) futures)
  /\ exists run,
       main (sample_world four_files is_corrupt true) 3 = Some run
       /\ state run = FailedNoOutput
       /\ output_file run = None.
Proof.
  assert (Hperm : forall futures,
             Permutation (as_completed (sample_world four_files is_corrupt true)
                            futures) futures).
  { intros futures. symmetry. apply Permutation_rev. }
  split; [exact Hperm |].
  destruct (output_needs_a_summary
              (sample_world four_files is_corrupt true) 0 Hperm)
    as [run [Hmain _]].
  exists run. split; [exact Hmain |].
  assert (E : Some run = Some (Build_Run FailedNoOutput [] None))
    by (rewrite <- Hmain; reflexivity).
  injection E as ->. split; reflexivity.
Defined.

(** No [.pdf] name in the folder; every file unreadable; the endpoint
    down for every file. *)
Example main_without_pdf_files :
  main (sample_world [u "notes.txt"; u "paper.PDF"] is_corrupt false) 3
  = Some {| state := FailedNoInput; collected := []; output_file := None |}.
Proof. reflexivity. Qed.

Example main_with_unreadable_files :
  main (sample_world four_files (fun _ => true) false) 3
  = Some {| state := FailedNoOutput; collected := []; output_file := None |}.
Proof. reflexivity. Qed.

Example main_with_endpoint_down :
  main (sample_world four_files is_corrupt true) 3
  = Some {| state := FailedNoOutput; collected := []; output_file := None |}.
Proof. reflexivity. Qed.

(** * Further properties of the program *)

Set Warnings "-abstract-large-number".

(** ** More on [clean_text] *)

Lemma filter_filter_andb {A} (f g : A -> bool) (l : list A) :
  filter f (filter g l) = filter (fun x => g x && f x) l.
Proof.
  induction l as [| x l IH]; simpl; [reflexivity |].
  destruct (g x); simpl; [destruct (f x) |]; rewrite IH; reflexivity.
Qed.

Lemma filter_none {A} (f g : A -> bool) (l : list A) :
  forallb g l = true -> (forall x, g x = true -> f x = false) ->
  filter f l = [].
Proof.
  intros Hl Hfg. induction l as [| x l IH]; simpl; [reflexivity |].
  simpl in Hl. apply andb_true_iff in Hl. destruct Hl as [Hx Hl].
  rewrite (Hfg x Hx). auto.
Qed.

Lemma visible_of_spaces (spaces : str) :
  forallb isspace spaces = true -> filter visible spaces = [].
Proof.
  intros H. apply (filter_none visible isspace spaces H).
  intros x Hx. unfold visible. rewrite Hx. reflexivity.
Qed.

Lemma visible_strip (s : str) : filter visible (strip s) = filter visible s.
Proof.
  unfold strip.
  destruct (lstrip_suffix s) as [sp1 [E1 H1]].
  destruct (rstrip_prefix (lstrip s)) as [sp2 [E2 H2]].
  rewrite E1 at 2. rewrite filter_app, (visible_of_spaces sp1 H1). simpl.
  rewrite E2 at 2. rewrite filter_app, (visible_of_spaces sp2 H2).
  symmetry. apply app_nil_r.
Qed.

Lemma visible_re_sub_spaces_from (b : bool) (s : str) :
  filter visible (re_sub_spaces_from b s) = filter visible s.
Proof.
  revert b. induction s as [| c rest IH]; intros b; simpl; [reflexivity |].
  unfold visible at 2. destruct (isspace c) eqn:Hc; simpl.
  - destruct b; simpl; apply IH.
  - unfold visible at 1. rewrite Hc. simpl. f_equal. apply IH.
Qed.

Lemma length_strip (s : str) : (length (strip s) <= length s)%nat.
Proof.
  unfold strip.
  destruct (lstrip_suffix s) as [sp1 [E1 _]].
  destruct (rstrip_prefix (lstrip s)) as [sp2 [E2 _]].
  apply (f_equal (@length char)) in E1, E2.
  rewrite length_app in E1, E2. lia.
Qed.

Lemma length_re_sub_spaces_from (b : bool) (s : str) :
  (length (re_sub_spaces_from b s) <= length s)%nat.
Proof.
  revert b. induction s as [| c rest IH]; intros b; simpl; [lia |].
  pose proof (IH true). pose proof (IH false).
  destruct (isspace c); [destruct b |]; simpl; lia.
Qed.

(** On pure ASCII text the normalisation pass and the encoding pass do
    nothing, provided decomposition leaves ASCII alone. *)
Lemma clean_text_of_ascii (U : Unicode) (text : str) :
  (forall s, isascii s = true -> nfkd U s = s) ->
  isascii text = true ->
  clean_text U text = strip (re_sub_spaces (filter printable text)).
Proof.
  intros Hnfkd Ha. unfold clean_text. rewrite (Hnfkd text Ha).
  unfold encode_ascii_ignore. rewrite (forallb_filter_id isascii_char text Ha).
  reflexivity.
Qed.

(** X1. Every visible character of the cleaned text comes from the
    decomposed input, in the same order, and every printable ASCII
    character of the decomposed input that is not whitespace is kept:
    cleaning only touches whitespace, control characters and non-ASCII
    characters. *)
Theorem clean_text_keeps_visible_characters (U : Unicode) (text : str) :
  filter visible (clean_text U text)
  = filter (fun c => printable_ascii c && visible c) (nfkd U text).
Proof.
  unfold clean_text, re_sub_spaces, encode_ascii_ignore.
  rewrite visible_strip, visible_re_sub_spaces_from.
  rewrite !filter_filter_andb. apply filter_ext. intros c.
  unfold printable_ascii, printable. apply andb_assoc.
Qed.

(** X2. The cleaned text is never longer than the decomposed input: the
    passes after normalisation only delete characters or shorten runs. *)
Theorem clean_text_never_longer (U : Unicode) (text : str) :
  (length (clean_text U text) <= length (nfkd U text))%nat.
Proof.
  unfold clean_text, re_sub_spaces, encode_ascii_ignore.
  etransitivity; [apply length_strip |].
  etransitivity; [apply length_re_sub_spaces_from |].
  etransitivity; [apply filter_length_le |].
  apply filter_length_le.
Qed.

(** X3. A control character (ordinal below 32, which includes the line
    feed and the tab) inside ASCII text is deleted without leaving a space:
    the text cleans to the same result as the text without it, so the words
    on its two sides are joined. *)
Theorem clean_text_deletes_control_characters
    (U : Unicode) (before after : str) (c : char) :
  (forall s, isascii s = true -> nfkd U s = s) ->
  isascii before = true -> isascii after = true -> (c < 32)%N ->
  clean_text U (before ++ c :: after) = clean_text U (before ++ after).
Proof.
  intros Hnfkd Hb Ha Hc.
  assert (Hcascii : isascii_char c = true)
    by (unfold isascii_char; apply N.ltb_lt; lia).
  rewrite !clean_text_of_ascii; try assumption.
  - rewrite !filter_app. simpl.
    replace (printable c) with false; [reflexivity |].
    symmetry. unfold printable. apply N.leb_gt. exact Hc.
  - unfold isascii. rewrite forallb_app. fold (isascii before).
    fold (isascii after). rewrite Hb, Ha. reflexivity.
  - unfold isascii. rewrite forallb_app. simpl. fold (isascii before).
    fold (isascii after). rewrite Hb, Ha, Hcascii. reflexivity.
Qed.

Lemma clean_text_deletes_control_characters_witness :
  (forall s, isascii s = true -> nfkd unicode_fragment s = s)
  /\ isascii (u "deep") = true /\ isascii (u "learning") = true
  /\ (NEWLINE < 32)%N
  /\ clean_text unicode_fragment (u "deep" ++ NEWLINE :: u "learning")
     = clean_text unicode_fragment (u "deep" ++ u "learning").
Proof.
  split; [exact nfkd_fragment_ascii |].
  split; [reflexivity |]. split; [reflexivity |]. split; [reflexivity |].
  apply (clean_text_deletes_control_characters unicode_fragment
           (u "deep") (u "learning") NEWLINE nfkd_fragment_ascii);
    reflexivity.
Defined.

(** ** Extraction and analysis *)

Lemma fold_left_pages (pages : list str) (text : str) :
  fold_left (fun text page => text ++ page ++ [NEWLINE]) pages text
  = text ++ concat (map (fun page => page ++ [NEWLINE]) pages).
Proof.
  revert text. induction pages as [| page rest IH]; intros text; simpl.
  - symmetry. apply app_nil_r.
  - rewrite IH, <- !app_assoc. reflexivity.
Qed.

Lemma isascii_app (a b : str) : isascii (a ++ b) = isascii a && isascii b.
Proof. apply forallb_app. Qed.

Lemma isascii_concat (pages : list str) :
  forallb isascii pages = true -> isascii (concat pages) = true.
Proof.
  induction pages as [| page rest IH]; simpl; [reflexivity |].
  intros H. apply andb_true_iff in H. destruct H as [Hp Hr].
  rewrite isascii_app, Hp, (IH Hr). reflexivity.
Qed.

(** X4. The newline that [extract_text_from_pdf] puts after each page does
    not survive the cleaning: for ASCII page texts, the extracted text is
    the cleaned concatenation of the pages, with nothing between the end
    of a page and the start of the next. *)
Theorem extract_text_joins_pages
    (W : World) (pdf_path : str) (pages : list str) :
  (forall s, isascii s = true -> nfkd (unicode W) s = s) ->
  pdf_pages W pdf_path = Return pages ->
  forallb isascii pages = true ->
  extract_text_from_pdf W pdf_path
  = Return (clean_text (unicode W) (concat pages)).
Proof.
  intros Hnfkd Hpages Hascii. unfold extract_text_from_pdf.
  rewrite Hpages, fold_left_pages. simpl app. f_equal.
  assert (Hlines : isascii (concat (map (fun page => page ++ [NEWLINE]) pages))
                   = true).
  { apply isascii_concat. rewrite forallb_forall in *.
    intros line Hline. apply in_map_iff in Hline.
    destruct Hline as [page [<- Hin]].
    rewrite isascii_app, (Hascii page Hin). reflexivity. }
  rewrite !clean_text_of_ascii; auto using isascii_concat.
  do 2 f_equal. clear. induction pages as [| page rest IH]; simpl;
    [reflexivity |].
  rewrite !filter_app, IH. simpl. rewrite app_nil_r. reflexivity.
Qed.

Lemma extract_text_joins_pages_witness :
  (forall s, isascii s = true
             -> nfkd (unicode (sample_world four_files is_corrupt false)) s = s)
  /\ pdf_pages (sample_world four_files is_corrupt false) (u "/app/PDF/a.pdf")
     = Return [u "a.pdf"; u "second page"]
  /\ forallb isascii [u "a.pdf"; u "second page"] = true
  /\ extract_text_from_pdf (sample_world four_files is_corrupt false)
       (u "/app/PDF/a.pdf")
     = Return (clean_text unicode_fragment (u "a.pdfsecond page")).
Proof.
  split; [exact nfkd_fragment_ascii |].
  split; [reflexivity |]. split; [reflexivity |].
  exact (extract_text_joins_pages (sample_world four_files is_corrupt false)
           (u "/app/PDF/a.pdf") [u "a.pdf"; u "second page"]
           nfkd_fragment_ascii eq_refl eq_refl).
Defined.

Lemma slice_to_firstn {A} (l : list A) (n : nat) :
  slice_to l (Z.of_nat n) = firstn n l.
Proof.
  unfold slice_to, clamp.
  destruct (Z.ltb_spec (Z.of_nat n) 0); [lia |].
  destruct (Nat.le_gt_cases (length l) n) as [Hle | Hgt].
  - replace (Z.to_nat (Z.max 0 (Z.min (Z.of_nat (length l)) (Z.of_nat n))))
      with (length l) by lia.
    rewrite firstn_all, firstn_all2 by exact Hle. reflexivity.
  - f_equal. lia.
Qed.

(** X5. [analyze_pdf] reads only the first 6000 characters of the text:
    two texts that agree on them get the same requests, attempts and
    result. *)
Theorem analyze_pdf_reads_first_6000_characters
    (W : World) (fuel : nat) (text1 text2 filename : str) :
  firstn 6000 text1 = firstn 6000 text2 ->
  analyze_pdf W fuel text1 filename = analyze_pdf W fuel text2 filename.
Proof.
  intros H. unfold analyze_pdf, analyze_pdf_body.
  change 6000%Z with (Z.of_nat 6000).
  rewrite !slice_to_firstn, H. reflexivity.
Qed.

Lemma analyze_pdf_reads_first_6000_characters_witness :
  firstn 6000 (repeat 97%N 6000 ++ u "conclusion")
  = firstn 6000 (repeat 97%N 6000 ++ u "appendix")
  /\ analyze_pdf (sample_world four_files is_corrupt false) 3
       (repeat 97%N 6000 ++ u "conclusion") (u "a.pdf")
     = analyze_pdf (sample_world four_files is_corrupt false) 3
         (repeat 97%N 6000 ++ u "appendix") (u "a.pdf").
Proof.
  assert (H : firstn 6000 (repeat 97%N 6000 ++ u "conclusion")
              = firstn 6000 (repeat 97%N 6000 ++ u "appendix"))
    by (vm_compute; reflexivity).
  split; [exact H |].
  exact (analyze_pdf_reads_first_6000_characters
           (sample_world four_files is_corrupt false) 3 _ _ (u "a.pdf") H).
Defined.

(** ** Retrying, continued *)

Lemma retry_three_raise {A} (fn : nat -> result A) (extra : nat)
    (e : exn) (events : list Tenacity.event) :
  Tenacity.retry (Tenacity.stop_after_attempt 3) fn (3 + extra)
  = Some (Raise e, events) ->
  exists e1 e2 e3,
    fn 1%nat = Raise e1 /\ fn 2%nat = Raise e2 /\ fn 3%nat = Raise e3
    /\ e = RetryError e3 /\ Tenacity.attempts events = 3%nat.
Proof.
  rewrite retry_stop_after_three.
  destruct (fn 1%nat) as [a1 | e1]; [discriminate |].
  destruct (fn 2%nat) as [a2 | e2]; [discriminate |].
  destruct (fn 3%nat) as [a3 | e3]; [discriminate |].
  intros H. injection H as <- <-. exists e1, e2, e3. auto.
Qed.

Lemma call_trace {A} (max_attempt_number : nat) (fn : nat -> result A)
    (fuel n : nat) (outcome : result A) (events : list Tenacity.event) :
  Tenacity.call (Tenacity.stop_after_attempt max_attempt_number) fn fuel n
  = Some (outcome, events) ->
  exists count,
    events = attempt_trace n count
    /\ (1 <= count)%nat
    /\ (n + count <= Nat.max (n + 1) (max_attempt_number + 1))%nat.
Proof.
  revert n outcome events.
  induction fuel as [| fuel IH]; intros n outcome events; simpl;
    [discriminate |].
  destruct (fn n) as [a | e].
  - intros H. injection H as <- <-. exists 1%nat. split; [reflexivity | lia].
  - unfold Tenacity.stop_after_attempt at 1.
    destruct (Nat.leb_spec max_attempt_number n) as [Hstop | Hgo].
    + intros H. injection H as <- <-. exists 1%nat.
      split; [reflexivity | lia].
    + destruct (Tenacity.call _ fn fuel (S n)) as [[r evs] |] eqn:E;
        [| discriminate].
      intros H. injection H as <- <-.
      destruct (IH _ _ _ E) as [count [-> [Hone Hbound]]].
      exists (S count). split; [| lia].
      destruct count as [| count']; [lia | reflexivity].
Qed.

(** X7. The events of a call of [analyze_pdf] or [synthesize_reviews] that
    ends are its attempts 1, 2, ... in order, at most three, with exactly
    one sleep after each attempt but the last: the call never sleeps before
    its first attempt nor after its last one. *)
Theorem analysis_and_synthesis_sleep_between_attempts
    (W : World) (fuel : nat) :
  (forall text filename outcome events,
     analyze_pdf W fuel text filename = Some (outcome, events) ->
     exists count,
       events = attempt_trace 1 count /\ (1 <= count <= 3)%nat)
  /\ (forall summaries outcome events,
        synthesize_reviews W fuel summaries = Some (outcome, events) ->
        exists count,
          events = attempt_trace 1 count /\ (1 <= count <= 3)%nat).
Proof.
  split; intros until events; intros H;
    destruct (call_trace 3 _ fuel 1 outcome events H)
      as [count [Hev [Hone Hbound]]];
    exists count; (split; [exact Hev | simpl in Hbound; lia]).
Qed.

(** ** [process_pdf] *)

Lemma basename_from_entry (name f : str) :
  is_entry_name f = true -> basename_from name f = name ++ f.
Proof.
  revert name. induction f as [| c rest IH]; intros name H; simpl.
  - symmetry. apply app_nil_r.
  - simpl in H. apply andb_true_iff in H. destruct H as [Hc Hrest].
    apply negb_true_iff in Hc. rewrite Hc, (IH _ Hrest), <- app_assoc.
    reflexivity.
Qed.

Lemma basename_from_separator (name dir rest : str) :
  basename_from name (dir ++ 47%N :: rest) = basename_from [] rest.
Proof.
  revert name. induction dir as [| c dir IH]; intros name; simpl.
  - reflexivity.
  - destruct (c =? 47)%N; apply IH.
Qed.

Lemma path_join_entry (dir : str) (c : char) (rest : str) :
  c <> 47%N ->
  path_join dir (c :: rest)
  = if endswith dir (u "/") || (length dir =? 0)%nat
    then dir ++ c :: rest else dir ++ u "/" ++ c :: rest.
Proof.
  intros Hc. unfold path_join. destruct c as [| p]; [reflexivity |].
  repeat (destruct p as [p | p |]; try reflexivity).
  congruence.
Qed.

Lemma basename_path_join (dir f : str) :
  f <> [] -> is_entry_name f = true -> basename (path_join dir f) = f.
Proof.
  intros Hne Hentry. destruct f as [| c rest]; [congruence |].
  assert (Hc : c <> 47%N).
  { simpl in Hentry. apply andb_true_iff in Hentry.
    destruct Hentry as [Hc _]. apply negb_true_iff, N.eqb_neq in Hc.
    exact Hc. }
  rewrite (path_join_entry dir c rest Hc). unfold basename.
  destruct (endswith dir (u "/")) eqn:Hend.
  - apply endswith_spec in Hend. destruct Hend as [d ->]. simpl orb.
    cbv iota. rewrite <- app_assoc.
    change (u "/" ++ c :: rest) with (47%N :: c :: rest).
    rewrite basename_from_separator. apply (basename_from_entry [] _ Hentry).
  - simpl orb. destruct dir as [| d dir'].
    + simpl. apply (basename_from_entry [] _ Hentry).
    + simpl Nat.eqb. cbv iota.
      change (u "/" ++ c :: rest) with (47%N :: c :: rest).
      rewrite basename_from_separator.
      apply (basename_from_entry [] _ Hentry).
Qed.

(** X8. For a directory entry [f] (non-empty, without a path separator),
    [process_pdf] of the joined path labels the analysis request with [f]
    itself: taking the base name undoes the join made in [main]. *)
Theorem process_pdf_labels_request_with_file_name
    (W : World) (fuel : nat) (pdf_folder f : str) :
  f <> [] -> is_entry_name f = true ->
  basename (path_join pdf_folder f) = f
  /\ process_pdf W fuel (path_join pdf_folder f)
     = match extract_text_from_pdf W (path_join pdf_folder f) with
       | Return text => option_map fst (analyze_pdf W fuel text f)
       | Raise e => Some (Raise e)
       end.
Proof.
  intros Hne Hentry.
  pose proof (basename_path_join pdf_folder f Hne Hentry) as Hbase.
  split; [exact Hbase |]. unfold process_pdf. rewrite Hbase. reflexivity.
Qed.

Lemma process_pdf_labels_request_with_file_name_witness :
  u "b.pdf" <> [] /\ is_entry_name (u "b.pdf") = true
  /\ basename (path_join (u "/app/PDF") (u "b.pdf")) = u "b.pdf"
  /\ process_pdf (sample_world four_files is_corrupt false) 3
       (path_join (u "/app/PDF") (u "b.pdf"))
     = Some (Return (paper (u "b.pdf") [u "Jane Smith"] 2020)).
Proof.
  split; [discriminate |]. split; [reflexivity |].
  destruct (process_pdf_labels_request_with_file_name
              (sample_world four_files is_corrupt false) 3
              (u "/app/PDF") (u "b.pdf") ltac:(discriminate) eq_refl)
    as [Hbase Hproc].
  split; [exact Hbase |]. rewrite Hproc. reflexivity.
Defined.

(** X9. A file that cannot be read makes [process_pdf] fail with the
    extraction error itself, whatever the fuel, so without any request to
    the endpoint; every other failure of [process_pdf] is a [RetryError]
    that wraps the error of the third analysis attempt. *)
Theorem process_pdf_failures (W : World) (extra : nat) (path : str) (e : exn) :
  (pdf_pages W path = Raise e ->
   forall fuel, process_pdf W fuel path = Some (Raise e))
  /\ (process_pdf W (3 + extra) path = Some (Raise e) ->
      pdf_pages W path = Raise e
      \/ exists text e3,
           extract_text_from_pdf W path = Return text
           /\ analyze_pdf_body W text (basename path) 3 = Raise e3
           /\ e = RetryError e3).
Proof.
  split.
  - intros Hpages fuel. unfold process_pdf, extract_text_from_pdf.
    rewrite Hpages. reflexivity.
  - unfold process_pdf, extract_text_from_pdf.
    destruct (pdf_pages W path) as [pages | e'].
    + intros H. right.
      destruct (analyze_pdf W (3 + extra) _ (basename path))
        as [[outcome events] |] eqn:E; [| discriminate].
      simpl in H. injection H as ->.
      destruct (retry_three_raise _ extra e events E)
        as [e1 [e2 [e3 [_ [_ [H3 [-> _]]]]]]].
      eauto.
    + intros H. injection H as ->. left. reflexivity.
Qed.

(** ** The authors of a citation *)

Lemma map_result_map {A B} (f : A -> result B) (g : A -> B) (l : list A) :
  (forall a, In a l -> f a = Return (g a)) ->
  map_result f l = Return (map g l).
Proof.
  induction l as [| a rest IH]; intros H; simpl; [reflexivity |].
  rewrite (H a (or_introl eq_refl)). simpl.
  rewrite IH by (intros x Hx; apply H; right; exact Hx). reflexivity.
Qed.

Lemma split_from_visible (word s : str) :
  forallb visible s = true ->
  split_from word s = match word ++ s with [] => [] | w => [w] end.
Proof.
  revert word. induction s as [| c rest IH]; intros word H; simpl.
  - rewrite app_nil_r. destruct word; reflexivity.
  - simpl in H. apply andb_true_iff in H. destruct H as [Hc Hrest].
    unfold visible in Hc. apply negb_true_iff in Hc. rewrite Hc.
    rewrite (IH _ Hrest), <- app_assoc. reflexivity.
Qed.

(** The initials computed by [format_author] for names taken from a
    split. *)
Lemma initials_of_parts (U : Unicode) (names : list str) :
  Forall (fun w => w <> []) names ->
  map_result
    (fun name => bind (index name 0) (fun c => Return (upper U [c] ++ u ".")))
    (filter (fun name => negb (str_in (lower U name) particles)) names)
  = Return (map (initial U)
              (filter (fun name => negb (is_particle U name)) names)).
Proof.
  intros Hne. apply map_result_map. intros name Hin.
  apply filter_In in Hin. destruct Hin as [Hin _].
  rewrite Forall_forall in Hne. specialize (Hne name Hin).
  destruct name as [| c name']; [congruence | reflexivity].
Qed.

Lemma split_parts_nonempty (author : str) (parts : list str) :
  split author = parts -> Forall (fun w => w <> []) parts.
Proof. intros <-. apply split_from_nonempty. Qed.

Lemma index_second_to_last {A} (before : list A) (a b : A) :
  index (before ++ [a; b]) (-2) = Return a.
Proof.
  apply (index_from_end (before ++ [a; b]) 2 a).
  - rewrite length_app. simpl. lia.
  - rewrite length_app, nth_error_app2 by (simpl; lia).
    replace (length before + length [a; b] - 2 - length before)%nat
      with 0%nat by (simpl; lia).
    reflexivity.
Qed.

(** X10. A name without whitespace is used as it is. *)
Theorem format_author_single_token (U : Unicode) (author : str) :
  forallb visible author = true -> format_author U author = Return author.
Proof.
  intros H. unfold format_author, split.
  rewrite (split_from_visible [] author H). simpl app.
  destruct author; reflexivity.
Qed.

Lemma format_author_single_token_witness :
  forallb visible (u "Plato") = true
  /\ format_author unicode_fragment (u "Plato") = Return (u "Plato").
Proof.
  split; [reflexivity |].
  apply (format_author_single_token unicode_fragment (u "Plato")).
  reflexivity.
Defined.

(** X11. When the second-to-last token of a name is a particle (in any
    letter case), the surname is that token and the last one joined by a
    space, and the initials are those of the tokens before it that are not
    particles; the initials already end in a period and are joined by
    ". ".  A two-token name such as "de Niro" therefore gives the name
    followed by ", " and no initials. *)
Theorem format_author_with_particle
    (U : Unicode) (author : str) (given : list str) (particle surname : str) :
  split author = given ++ [particle; surname] ->
  is_particle U particle = true ->
  format_author U author
  = Return (particle ++ u " " ++ surname ++ u ", " ++ initials_of U given).
Proof.
  intros Hsplit Hparticle.
  pose proof (split_parts_nonempty author _ Hsplit) as Hne.
  unfold format_author. rewrite Hsplit.
  assert (Hlen : length (given ++ [particle; surname]) = (length given + 2)%nat)
    by (rewrite length_app; reflexivity).
  replace (1 <? length (given ++ [particle; surname]))%nat with true
    by (symmetry; apply Nat.ltb_lt; lia).
  rewrite index_second_to_last.
  cbn [bind]. fold (is_particle U particle). rewrite Hparticle. cbn [bind].
    rewrite slice_to_minus_one.
    replace (removelast (given ++ [particle; surname])) with (given ++ [particle])
      by (rewrite removelast_app by discriminate; reflexivity).
    rewrite filter_app. cbn [filter]. fold (is_particle U particle).
    rewrite Hparticle. cbn [negb]. rewrite app_nil_r.
    rewrite initials_of_parts.
    + cbn [bind]. unfold slice_from, clamp. rewrite Hlen.
      replace (Z.to_nat _) with (length given)
        by (destruct (Z.ltb_spec (-2) 0); lia).
      rewrite skipn_app, skipn_all, Nat.sub_diag.
      cbn [skipn app join]. unfold initials_of.
      rewrite <- !app_assoc. reflexivity.
    + apply Forall_app in Hne. tauto.
Qed.

Lemma format_author_with_particle_witness :
  split (u "Vincent Willem van Gogh")
  = [u "Vincent"; u "Willem"] ++ [u "van"; u "Gogh"]
  /\ is_particle unicode_fragment (u "van") = true
  /\ format_author unicode_fragment (u "Vincent Willem van Gogh")
     = Return (u "van Gogh, V.. W.").
Proof.
  split; [reflexivity |]. split; [reflexivity |].
  exact (format_author_with_particle unicode_fragment
           (u "Vincent Willem van Gogh") [u "Vincent"; u "Willem"]
           (u "van") (u "Gogh") eq_refl eq_refl).
Defined.

(** X12. When the second-to-last token of a name is not a particle, the
    surname is the last token alone and the initials are those of all the
    tokens before it that are not particles, each ending in a period and
    joined by ". " (so two given names give "A.. B."). *)
Theorem format_author_without_particle
    (U : Unicode) (author : str) (given : list str) (middle surname : str) :
  split author = given ++ [middle; surname] ->
  is_particle U middle = false ->
  format_author U author
  = Return (surname ++ u ", " ++ initials_of U (given ++ [middle])).
Proof.
  intros Hsplit Hmiddle.
  pose proof (split_parts_nonempty author _ Hsplit) as Hne.
  unfold format_author. rewrite Hsplit.
  assert (Hlen : length (given ++ [middle; surname]) = (length given + 2)%nat)
    by (rewrite length_app; reflexivity).
  replace (1 <? length (given ++ [middle; surname]))%nat with true
    by (symmetry; apply Nat.ltb_lt; lia).
  rewrite index_second_to_last.
  cbn [bind]. fold (is_particle U middle). rewrite Hmiddle.
    rewrite (index_last (given ++ [middle; surname]) [])
      by (destruct given; discriminate).
    cbn [bind]. rewrite slice_to_minus_one.
    replace (removelast (given ++ [middle; surname])) with (given ++ [middle])
      by (rewrite removelast_app by discriminate; reflexivity).
    rewrite initials_of_parts.
    + cbn [bind].
      replace (given ++ [middle; surname])
        with ((given ++ [middle]) ++ [surname])
        by (rewrite <- app_assoc; reflexivity).
      rewrite last_last. reflexivity.
    + replace (given ++ [middle; surname])
        with ((given ++ [middle]) ++ [surname])
        in Hne by (rewrite <- app_assoc; reflexivity).
      apply Forall_app in Hne. tauto.
Qed.

Lemma format_author_without_particle_witness :
  split (u "John Ronald Tolkien") = [u "John"] ++ [u "Ronald"; u "Tolkien"]
  /\ is_particle unicode_fragment (u "Ronald") = false
  /\ format_author unicode_fragment (u "John Ronald Tolkien")
     = Return (u "Tolkien, J.. R.").
Proof.
  split; [reflexivity |]. split; [reflexivity |].
  exact (format_author_without_particle unicode_fragment
           (u "John Ronald Tolkien") [u "John"] (u "Ronald") (u "Tolkien")
           eq_refl eq_refl).
Defined.

(** ** The shape of a citation *)

(** X13. Every citation consists of an author part, the year in
    parentheses followed by a period and a space, a title part and a final
    period; without authors the author part is "Unknown." and the title
    part is the title as given, neither cased nor stripped of its
    period. *)
Theorem citation_shape (U : Unicode) (summary : PaperSummary) :
  exists who what,
    create_apa_citation U summary
    = (y <- format_int U (year summary) ;;
       Return (who ++ u " (" ++ y ++ u "). " ++ what ++ u "."))%result
    /\ (exceeds_max_str_digits U (year summary) = false ->
        create_apa_citation U summary
        = Return (who ++ u " (" ++ decimal (year summary) ++ u "). "
                    ++ what ++ u "."))
    /\ (forall citation,
          create_apa_citation U summary = Return citation ->
          endswith citation (u ".") = true)
    /\ (authors summary = [] -> who = u "Unknown." /\ what = title summary)
    /\ (authors summary <> [] ->
          what = remove_trailing_period (title_case U (title summary))).
Proof.
  assert (Hshape : forall who what : str,
             create_apa_citation U summary
             = (y <- format_int U (year summary) ;;
                Return (who ++ u " (" ++ y ++ u "). " ++ what ++ u "."))%result
             ->
             (exceeds_max_str_digits U (year summary) = false ->
              create_apa_citation U summary
              = Return (who ++ u " (" ++ decimal (year summary) ++ u "). "
                          ++ what ++ u "."))
             /\ (forall citation,
                   create_apa_citation U summary = Return citation ->
                   endswith citation (u ".") = true)).
  { intros who what Hc. split.
    - intros Hyear. rewrite Hc, (format_int_within_limit U _ Hyear).
      reflexivity.
    - intros citation Hcit. rewrite Hc in Hcit.
      destruct (format_int U (year summary)) as [y |]; [| discriminate].
      cbn [bind] in Hcit. injection Hcit as <-. apply endswith_spec.
      exists (who ++ u " (" ++ y ++ u "). " ++ what).
      rewrite <- !app_assoc. reflexivity. }
  destruct (authors summary) as [| a rest] eqn:Ha.
  - exists (u "Unknown."), (title summary).
    assert (Hc : create_apa_citation U summary
                 = (y <- format_int U (year summary) ;;
                    Return (u "Unknown." ++ u " (" ++ y ++ u "). "
                              ++ title summary ++ u "."))%result)
      by (unfold create_apa_citation; rewrite Ha; reflexivity).
    destruct (Hshape _ _ Hc) as [H1 H2].
    split; [exact Hc |]. split; [exact H1 |]. split; [exact H2 |].
    split; [auto | congruence].
  - destruct (create_apa_citation_with_authors U summary)
      as [fa [js [_ [_ [_ Hc]]]]]; [congruence |].
    exists js, (remove_trailing_period (title_case U (title summary))).
    destruct (Hshape _ _ Hc) as [H1 H2].
    split; [exact Hc |]. split; [exact H1 |]. split; [exact H2 |].
    split; [discriminate | auto].
Qed.

Lemma create_paper_list_app (U : Unicode) (first second : list PaperSummary) :
  create_paper_list U (first ++ second)
  = create_paper_list U first ++ concat (map (paper_list_entry U) second).
Proof.
  rewrite !create_paper_list_entries, map_app, concat_app, app_assoc.
  reflexivity.
Qed.

(** X14. The list of papers is the heading, an empty line, and one
    bulleted line per summary in the order given, each made of "- ", the
    citation of the summary (or "Error in citation: " and its title when
    the citation raised) and a line feed; the list of [first] followed by
    [second] is the list of [first] followed by the entries of
    [second]. *)
Theorem create_paper_list_in_order
    (U : Unicode) (first second : list PaperSummary) :
  create_paper_list U [] = u "## List of Reviewed Papers" ++ [NEWLINE; NEWLINE]
  /\ create_paper_list U (first ++ second)
     = create_paper_list U first ++ concat (map (paper_list_entry U) second)
  /\ exists lines,
       Forall2 (entry_line U) second lines
       /\ create_paper_list U second
          = u "## List of Reviewed Papers" ++ [NEWLINE; NEWLINE]
              ++ concat (map (fun line => u "- " ++ line ++ [NEWLINE]) lines)
       /\ concat (map (paper_list_entry U) second)
          = concat (map (fun line => u "- " ++ line ++ [NEWLINE]) lines).
Proof.
  split; [reflexivity |]. split; [apply create_paper_list_app |].
  destruct (entries_as_lines U second) as [lines [Hlines Heq]].
  exists lines. split; [exact Hlines |]. split; [| exact Heq].
  rewrite create_paper_list_entries, Heq. unfold paper_list_heading.
  rewrite <- !app_assoc. reflexivity.
Qed.

(** ** The output of [main] *)

Lemma firstn_prefix {A} (n : nat) (l : list A) :
  exists rest, firstn n l ++ rest = l.
Proof. exists (skipn n l). apply firstn_skipn. Qed.

(** The ways the [with] block can end. *)
Lemma write_output_outcome (W : World) (name review paper_list : str) :
  (exists e,
     write_output W name review paper_list = (None, Raise e))
  \/ (exists e stored written,
        write_output W name review paper_list
        = (Some (name, firstn stored written), Raise e)
        /\ (file_write W [] review = Failed e stored /\ written = review
            \/ file_write W review [NEWLINE; NEWLINE] = Failed e stored
               /\ written = review ++ [NEWLINE; NEWLINE]
            \/ file_write W (review ++ [NEWLINE; NEWLINE]) paper_list
               = Failed e stored
               /\ written = (review ++ [NEWLINE; NEWLINE]) ++ paper_list
            \/ file_close W ((review ++ [NEWLINE; NEWLINE]) ++ paper_list)
               = Failed e stored
               /\ written = (review ++ [NEWLINE; NEWLINE]) ++ paper_list))
  \/ write_output W name review paper_list
     = (Some (name, (review ++ [NEWLINE; NEWLINE]) ++ paper_list), Return tt).
Proof.
  unfold write_output.
  destruct (open_w W name) as [[] | e]; [| left; eauto].
  right.
  destruct (file_write W [] review) as [| e stored] eqn:H1;
    [| left; exists e, stored, review; auto].
  destruct (file_write W review [NEWLINE; NEWLINE]) as [| e stored] eqn:H2;
    [| left; exists e, stored, (review ++ [NEWLINE; NEWLINE]); auto].
  destruct (file_write W (review ++ [NEWLINE; NEWLINE]) paper_list)
    as [| e stored] eqn:H3;
    [| left; exists e, stored, ((review ++ [NEWLINE; NEWLINE]) ++ paper_list);
       auto 6].
  destruct (file_close W ((review ++ [NEWLINE; NEWLINE]) ++ paper_list))
    as [| e stored] eqn:H4;
    [right; reflexivity
    | left; exists e, stored, ((review ++ [NEWLINE; NEWLINE]) ++ paper_list);
      auto 6].
Qed.

Lemma write_output_cases (W : World) (name review paper_list : str) :
  (forall done,
     snd (write_output W name review paper_list) = Return done ->
     fst (write_output W name review paper_list)
     = Some (name, (review ++ [NEWLINE; NEWLINE]) ++ paper_list))
  /\ (forall file content,
        fst (write_output W name review paper_list) = Some (file, content) ->
        file = name
        /\ exists rest,
             content ++ rest = (review ++ [NEWLINE; NEWLINE]) ++ paper_list).
Proof.
  destruct (write_output_outcome W name review paper_list)
    as [[e ->] | [[e [stored [written [-> Hwhich]]]] | ->]]; simpl.
  - split; intros; discriminate.
  - split; [intros; discriminate |].
    intros file content H. injection H as <- <-. split; [reflexivity |].
    destruct (firstn_prefix stored written) as [rest Hrest].
    destruct Hwhich as [[_ ->] | [[_ ->] | [[_ ->] | [_ ->]]]].
    + exists (rest ++ [NEWLINE; NEWLINE] ++ paper_list).
      rewrite app_assoc, Hrest, <- !app_assoc. reflexivity.
    + exists (rest ++ paper_list). rewrite app_assoc, Hrest. reflexivity.
    + exists rest. exact Hrest.
    + exists rest. exact Hrest.
  - split; [reflexivity |].
    intros file content H. injection H as <- <-. split; [reflexivity |].
    exists []. apply app_nil_r.
Qed.

(** What [main_cases] says of a run that reached the synthesis. *)
Lemma main_after_collection (W : World) (extra : nat) (run : Run) :
  main W (3 + extra) = Some run ->
  collected run = []
  /\ state run <> Completed /\ output_file run = None
  \/ collected run <> []
     /\ ((exists e events,
            synthesize_reviews W (3 + extra) (collected run)
            = Some (Raise e, events))
         /\ state run = FailedUnexpected /\ output_file run = None
         \/ exists review events written,
             synthesize_reviews W (3 + extra) (collected run)
             = Some (Return review, events)
             /\ write_output W (output_name W) review
                  (create_paper_list (unicode W) (collected run))
                = written
             /\ output_file run = fst written
             /\ state run
                = match snd written with
                  | Return _ => Completed
                  | Raise _ => FailedUnexpected
                  end).
Proof.
  intros Hmain.
  destruct (main_cases W extra) as [run' [Hmain' Hcases]].
  assert (run' = run) by congruence. subst run'.
  destruct Hcases as [[_ ->] | [pdf_folder [_ Hcases]]];
    [left; simpl; repeat split; discriminate |].
  destruct Hcases as [[_ ->] | [names [futures [_ [_ Hcases]]]]];
    [left; simpl; repeat split; discriminate |].
  destruct Hcases as [[_ ->] | [_ Hcases]];
    [left; simpl; repeat split; discriminate |].
  destruct Hcases as [[_ ->] | [Hsome [Hcoll Hcases]]];
    [left; simpl; repeat split; discriminate |].
  right. split; [congruence | exact Hcases].
Qed.

(** X15. A run of [main] that ends as completed has collected at least one
    summary, obtained the review from the synthesis, and left the whole
    document (the review, an empty line, the list of papers) in the
    output file. *)
Theorem completed_run_wrote_the_document
    (W : World) (extra : nat) (run : Run) :
  main W (3 + extra) = Some run ->
  state run = Completed ->
  collected run <> []
  /\ exists review events,
       synthesize_reviews W (3 + extra) (collected run)
       = Some (Return review, events)
       /\ output_file run
          = Some (output_name W, document W review (collected run)).
Proof.
  intros Hmain Hstate.
  destruct (main_after_collection W extra run Hmain)
    as [[_ [Hno _]] | [Hsome Hcases]]; [congruence |].
  split; [exact Hsome |].
  destruct Hcases
    as [[_ [Hfail _]] | [review [events [written [Hsyn [Hw [Hout Hst]]]]]]];
    [congruence |].
  exists review, events. split; [exact Hsyn |].
  subst written. rewrite Hout.
  destruct (snd (write_output W (output_name W) review
                   (create_paper_list (unicode W) (collected run))))
    as [done |] eqn:Hsnd; [| congruence].
  apply (proj1 (write_output_cases W _ _ _) done Hsnd).
Qed.

Lemma completed_run_wrote_the_document_witness :
  main (sample_world four_files is_corrupt false) (3 + 0)
  = Some
      {| state := Completed;
         collected := [paper (u "c.pdf") [u "Jane Smith"] 2020;
                       paper (u "b.pdf") [u "Jane Smith"] 2020;
                       paper (u "a.pdf") [u "Jane Smith"] 2020];
         output_file :=
           Some (output_name (sample_world four_files is_corrupt false),
                 document (sample_world four_files is_corrupt false)
                   (u "A review.")
                   [paper (u "c.pdf") [u "Jane Smith"] 2020;
                    paper (u "b.pdf") [u "Jane Smith"] 2020;
                    paper (u "a.pdf") [u "Jane Smith"] 2020]) |}
  /\ [paper (u "c.pdf") [u "Jane Smith"] 2020;
      paper (u "b.pdf") [u "Jane Smith"] 2020;
      paper (u "a.pdf") [u "Jane Smith"] 2020] <> [].
Proof.
  split; [reflexivity |].
  exact (proj1 (completed_run_wrote_the_document
                  (sample_world four_files is_corrupt false) 0 _
                  eq_refl eq_refl)).
Defined.

(** X16. Whatever file a run of [main] leaves behind is named
    [literature_review_<timestamp>.md] and holds a beginning of the
    document made from the review and the collected summaries.  Either the
    run is completed and the file holds the whole document, or a write or
    the close raised, the run ended as failed, and the file holds the
    first characters, as many as that operation stored, of the text written
    up to it. *)
Theorem output_file_is_a_beginning_of_the_document
    (W : World) (extra : nat) (run : Run) (file content : str) :
  main W (3 + extra) = Some run ->
  output_file run = Some (file, content) ->
  file = output_name W
  /\ exists review events,
       synthesize_reviews W (3 + extra) (collected run)
       = Some (Return review, events)
       /\ (exists rest, content ++ rest = document W review (collected run))
       /\ (state run = Completed
           /\ content = document W review (collected run)
           \/ state run = FailedUnexpected
              /\ exists e stored written,
                   content = firstn stored written
                   /\ (file_write W [] review = Failed e stored
                       /\ written = review
                       \/ file_write W review [NEWLINE; NEWLINE]
                          = Failed e stored
                          /\ written = review ++ [NEWLINE; NEWLINE]
                       \/ file_write W (review ++ [NEWLINE; NEWLINE])
                            (create_paper_list (unicode W) (collected run))
                          = Failed e stored
                          /\ written = document W review (collected run)
                       \/ file_close W (document W review (collected run))
                          = Failed e stored
                          /\ written = document W review (collected run))).
Proof.
  intros Hmain Hfile.
  destruct (main_after_collection W extra run Hmain)
    as [[_ [_ Hno]] | [Hsome Hcases]]; [congruence |].
  destruct Hcases
    as [[_ [_ Hno]] | [review [events [written [Hsyn [Hw [Hout Hst]]]]]]];
    [congruence |].
  subst written. rewrite Hout in Hfile.
  destruct (proj2 (write_output_cases W _ _ _) file content Hfile)
    as [Hname [rest Hrest]].
  split; [exact Hname |]. exists review, events.
  split; [exact Hsyn |]. split; [exists rest; exact Hrest |].
  destruct (write_output_outcome W (output_name W) review
              (create_paper_list (unicode W) (collected run)))
    as [[e Hw] | [[e [stored [written [Hw Hwhich]]]] | Hw]];
    rewrite Hw in Hfile, Hst; simpl in Hfile, Hst.
  - discriminate.
  - right. split; [exact Hst |]. injection Hfile as _ <-.
    exists e, stored, written. split; [reflexivity | exact Hwhich].
  - left. split; [exact Hst |]. injection Hfile as _ <-. reflexivity.
Qed.

Lemma output_file_is_a_beginning_of_the_document_witness :
  exists run,
    main world_with_full_disk (3 + 0) = Some run
    /\ output_file run
       = Some (u "literature_review_20240101_120000.md",
               u "A review." ++ [NEWLINE; NEWLINE] ++ u "## List o")
    /\ state run = FailedUnexpected
    /\ u "literature_review_20240101_120000.md"
       = output_name world_with_full_disk.
Proof.
  eexists. split; [reflexivity |]. split; [reflexivity |].
  split; [reflexivity |].
  exact (proj1 (output_file_is_a_beginning_of_the_document
                  world_with_full_disk 0 _ _ _ eq_refl eq_refl)).
Defined.

(** X17. When the synthesis fails although summaries were collected, the
    run ends as failed without creating any file: the summaries are not
    written anywhere. *)
Theorem failed_synthesis_writes_nothing
    (W : World) (extra : nat) (run : Run) (e : exn)
    (events : list Tenacity.event) :
  main W (3 + extra) = Some run ->
  collected run <> [] ->
  synthesize_reviews W (3 + extra) (collected run) = Some (Raise e, events) ->
  state run = FailedUnexpected /\ output_file run = None.
Proof.
  intros Hmain Hsome Hsyn.
  destruct (main_after_collection W extra run Hmain)
    as [[Hnone _] | [_ Hcases]]; [congruence |].
  destruct Hcases
    as [[_ Hfail] | [review [ev [written [Hsyn' _]]]]]; [exact Hfail |].
  congruence.
Qed.

Lemma failed_synthesis_writes_nothing_witness :
  exists run,
    main world_without_synthesis (3 + 0) = Some run
    /\ collected run <> []
    /\ synthesize_reviews world_without_synthesis (3 + 0) (collected run)
       = Some (Raise (RetryError (CollaboratorError 500)),
               [Tenacity.DoAttempt 1; Tenacity.DoSleep 1;
                Tenacity.DoAttempt 2; Tenacity.DoSleep 2;
                Tenacity.DoAttempt 3])
    /\ state run = FailedUnexpected
    /\ output_file run = None.
Proof.
  eexists. split; [reflexivity |]. split; [discriminate |].
  split; [reflexivity |].
  eapply (failed_synthesis_writes_nothing world_without_synthesis 0);
    [reflexivity | discriminate | reflexivity].
Defined.

(** X18. Without a [PDF] folder beside the script, or when the folder
    cannot be listed, [main] ends as failed at once: nothing is processed,
    no request is made (the fuel is not used) and no file is written. *)
Theorem main_without_folder (W : World) (fuel : nat) :
  (isdir W (path_join (script_dir W) (u "PDF")) = false ->
   find_pdf_folder W = Raise FileNotFoundError
   /\ main W fuel = Some (Build_Run FailedUnexpected [] None))
  /\ (forall e,
        isdir W (path_join (script_dir W) (u "PDF")) = true ->
        listdir W (path_join (script_dir W) (u "PDF")) = Raise e ->
        main W fuel = Some (Build_Run FailedUnexpected [] None)).
Proof.
  unfold main, find_pdf_folder. split.
  - intros ->. split; reflexivity.
  - intros e -> ->. reflexivity.
Qed.

(** ** Title casing *)

Lemma isspace_range (c : char) :
  isspace c = true -> (c <= 32 \/ 133 <= c)%N.
Proof.
  unfold isspace. intros Hs.
  repeat (apply orb_true_iff in Hs; destruct Hs as [Hs | Hs]);
    try (apply andb_true_iff in Hs; destruct Hs as [H1 H2];
         apply N.leb_le in H1; apply N.leb_le in H2);
    try apply N.eqb_eq in Hs; lia.
Qed.

Lemma visible_letter (c : char) : (32 < c < 133)%N -> visible c = true.
Proof.
  intros Hc. unfold visible. destruct (isspace c) eqn:E; [| reflexivity].
  apply isspace_range in E. lia.
Qed.

Lemma ascii_lower_char_ok (c : char) :
  isascii_char c = true -> visible c = true ->
  isascii_char (ascii_lower_char c) = true
  /\ visible (ascii_lower_char c) = true.
Proof.
  unfold ascii_lower_char, isascii_char. intros Ha Hv.
  destruct ((65 <=? c) && (c <=? 90))%N eqn:E; [| auto].
  apply andb_true_iff in E. destruct E as [H1 H2].
  apply N.leb_le in H1, H2. split.
  - apply N.ltb_lt. lia.
  - apply visible_letter. lia.
Qed.

Lemma ascii_upper_char_ok (c : char) :
  isascii_char c = true -> visible c = true ->
  isascii_char (ascii_upper_char c) = true
  /\ visible (ascii_upper_char c) = true.
Proof.
  unfold ascii_upper_char, isascii_char. intros Ha Hv.
  destruct ((97 <=? c) && (c <=? 122))%N eqn:E; [| auto].
  apply andb_true_iff in E. destruct E as [H1 H2].
  apply N.leb_le in H1, H2. split.
  - apply N.ltb_lt. lia.
  - apply visible_letter. lia.
Qed.

Lemma ascii_lower_char_idem (c : char) :
  ascii_lower_char (ascii_lower_char c) = ascii_lower_char c.
Proof.
  unfold ascii_lower_char.
  destruct ((65 <=? c) && (c <=? 90))%N eqn:E; [| rewrite E; reflexivity].
  apply andb_true_iff in E. destruct E as [H1 H2].
  apply N.leb_le in H1, H2.
  replace (c + 32 <=? 90)%N with false by (symmetry; apply N.leb_gt; lia).
  rewrite andb_false_r. reflexivity.
Qed.

Lemma ascii_upper_char_idem (c : char) :
  ascii_upper_char (ascii_upper_char c) = ascii_upper_char c.
Proof.
  unfold ascii_upper_char.
  destruct ((97 <=? c) && (c <=? 122))%N eqn:E; [| rewrite E; reflexivity].
  apply andb_true_iff in E. destruct E as [H1 H2].
  apply N.leb_le in H1, H2.
  replace (97 <=? c - 32)%N with false by (symmetry; apply N.leb_gt; lia).
  reflexivity.
Qed.

Lemma ascii_lower_upper_char (c : char) :
  ascii_lower_char (ascii_upper_char c) = ascii_lower_char c.
Proof.
  unfold ascii_lower_char, ascii_upper_char.
  destruct ((97 <=? c) && (c <=? 122))%N eqn:E.
  - apply andb_true_iff in E. destruct E as [H1 H2].
    apply N.leb_le in H1, H2.
    replace (65 <=? c - 32)%N with true by (symmetry; apply N.leb_le; lia).
    replace (c - 32 <=? 90)%N with true by (symmetry; apply N.leb_le; lia).
    replace (c <=? 90)%N with false by (symmetry; apply N.leb_gt; lia).
    rewrite andb_false_r. simpl. lia.
  - reflexivity.
Qed.

Lemma ascii_word_spec (w : str) :
  ascii_word w = true
  <-> w <> [] /\ forallb visible w = true /\ isascii w = true.
Proof.
  unfold ascii_word. rewrite !andb_true_iff, negb_true_iff, Nat.eqb_neq.
  destruct w; simpl; intuition congruence.
Qed.

Lemma map_lower_ok (w : str) :
  forallb visible w = true -> isascii w = true ->
  forallb visible (map ascii_lower_char w) = true
  /\ isascii (map ascii_lower_char w) = true.
Proof.
  unfold isascii. induction w as [| c w IH]; simpl; [auto |].
  rewrite !andb_true_iff. intros [Hv Hvs] [Ha Has].
  destruct (ascii_lower_char_ok c Ha Hv) as [-> ->].
  destruct (IH Hvs Has) as [-> ->]. auto.
Qed.

Lemma lower_ascii_word (U : Unicode) (w : str) :
  ascii_word w = true ->
  lower U w = map ascii_lower_char w /\ ascii_word (lower U w) = true.
Proof.
  intros Hw. apply ascii_word_spec in Hw. destruct Hw as [Hne [Hv Ha]].
  unfold lower. rewrite Ha. split; [reflexivity |].
  apply ascii_word_spec. destruct (map_lower_ok w Hv Ha) as [Hv' Ha'].
  repeat split; auto. destruct w; [congruence | discriminate].
Qed.

Lemma capitalize_ascii_word (U : Unicode) (w : str) :
  ascii_word w = true ->
  capitalize U w
  = match w with
    | [] => []
    | c :: rest => ascii_upper_char c :: map ascii_lower_char rest
    end
  /\ ascii_word (capitalize U w) = true.
Proof.
  intros Hw. apply ascii_word_spec in Hw. destruct Hw as [Hne [Hv Ha]].
  unfold capitalize. rewrite Ha. split; [reflexivity |].
  apply ascii_word_spec. destruct w as [| c rest]; [congruence |].
  simpl in Hv. unfold isascii in Ha. simpl in Ha.
  apply andb_true_iff in Hv, Ha. destruct Hv as [Hv Hvs], Ha as [Ha Has].
  destruct (ascii_upper_char_ok c Ha Hv) as [Hua Huv].
  destruct (map_lower_ok rest Hvs Has) as [Hlv Hla].
  unfold isascii in *. simpl. rewrite Hua, Huv, Hlv, Hla.
  repeat split; discriminate || reflexivity.
Qed.

Lemma case_word_ascii_word (U : Unicode) (i : nat) (w : str) :
  ascii_word w = true -> ascii_word (case_word U (i, w)) = true.
Proof.
  intros Hw. unfold case_word.
  destruct ((i =? 0)%nat || negb (str_in (lower U w) stop_words)).
  - apply capitalize_ascii_word, Hw.
  - apply lower_ascii_word, Hw.
Qed.

Lemma map_ascii_lower_idem (w : str) :
  map ascii_lower_char (map ascii_lower_char w) = map ascii_lower_char w.
Proof.
  rewrite map_map. apply map_ext. apply ascii_lower_char_idem.
Qed.

(** Casing a word that has been cased at the same position changes
    nothing. *)
Lemma case_word_idem (U : Unicode) (i : nat) (w : str) :
  ascii_word w = true ->
  case_word U (i, case_word U (i, w)) = case_word U (i, w).
Proof.
  intros Hw.
  destruct (lower_ascii_word U w Hw) as [Hlow Hlow_ok].
  destruct (capitalize_ascii_word U w Hw) as [Hcap Hcap_ok].
  destruct (lower_ascii_word U _ Hlow_ok) as [Hlow2 _].
  destruct (lower_ascii_word U _ Hcap_ok) as [Hlowcap _].
  destruct (capitalize_ascii_word U _ Hcap_ok) as [Hcap2 _].
  assert (Hlc : lower U (capitalize U w) = lower U w).
  { rewrite Hlowcap, Hcap, Hlow. destruct w as [| c rest]; [reflexivity |].
    simpl. rewrite ascii_lower_upper_char, map_ascii_lower_idem.
    reflexivity. }
  assert (Hll : lower U (lower U w) = lower U w).
  { rewrite Hlow2, Hlow. apply map_ascii_lower_idem. }
  assert (Hcc : capitalize U (capitalize U w) = capitalize U w).
  { rewrite Hcap2, Hcap. destruct w as [| c rest]; [reflexivity |].
    rewrite ascii_upper_char_idem, map_ascii_lower_idem. reflexivity. }
  unfold case_word.
  destruct ((i =? 0)%nat || negb (str_in (lower U w) stop_words)) eqn:E.
  - rewrite Hlc, E. exact Hcc.
  - rewrite Hll, E. reflexivity.
Qed.

Lemma split_from_app_visible (word w s : str) :
  forallb visible w = true ->
  split_from word (w ++ s) = split_from (word ++ w) s.
Proof.
  revert word. induction w as [| c w IH]; intros word H; simpl.
  - rewrite app_nil_r. reflexivity.
  - simpl in H. apply andb_true_iff in H. destruct H as [Hc Hw].
    unfold visible in Hc. apply negb_true_iff in Hc. rewrite Hc.
    rewrite (IH _ Hw), <- app_assoc. reflexivity.
Qed.

Lemma split_from_space (word s : str) :
  word <> [] -> split_from word (SPACE :: s) = word :: split_from [] s.
Proof. destruct word; [congruence | reflexivity]. Qed.

(** Splitting undoes joining by single spaces. *)
Lemma split_join_words (words : list str) :
  forallb ascii_word words = true -> split (join (u " ") words) = words.
Proof.
  unfold split. induction words as [| w rest IH]; [reflexivity |].
  simpl forallb. rewrite andb_true_iff. intros [Hw Hrest].
  apply ascii_word_spec in Hw. destruct Hw as [Hne [Hv _]].
  destruct rest as [| w2 rest'].
  - simpl. rewrite (split_from_visible [] w Hv). simpl.
    destruct w; [congruence | reflexivity].
  - change (join (u " ") (w :: w2 :: rest'))
      with (w ++ SPACE :: join (u " ") (w2 :: rest')).
    rewrite (split_from_app_visible [] w _ Hv). simpl app.
    rewrite (split_from_space w _ Hne), (IH Hrest). reflexivity.
Qed.

Lemma split_from_ascii_words (word s : str) :
  forallb visible word = true -> isascii word = true -> isascii s = true ->
  forallb ascii_word (split_from word s) = true.
Proof.
  revert word. induction s as [| c rest IH]; intros word Hv Ha Hs; simpl.
  - destruct word as [| x word'] eqn:E; [reflexivity |].
    simpl. rewrite andb_true_r. apply ascii_word_spec.
    repeat split; auto. discriminate.
  - unfold isascii in Hs. simpl in Hs. apply andb_true_iff in Hs.
    destruct Hs as [Hc Hrest].
    destruct (isspace c) eqn:Hsp.
    + destruct word as [| x word'] eqn:E; [apply IH; auto |].
      simpl. rewrite (IH [] eq_refl eq_refl Hrest), andb_true_r.
      apply ascii_word_spec. repeat split; auto. discriminate.
    + apply IH; auto.
      * rewrite forallb_app, Hv. simpl. unfold visible. rewrite Hsp.
        reflexivity.
      * unfold isascii in *. rewrite forallb_app, Ha. simpl. rewrite Hc.
        reflexivity.
Qed.

Lemma case_words_from (U : Unicode) (k : nat) (words : list str) :
  forallb ascii_word words = true ->
  forallb ascii_word
    (map (case_word U) (combine (seq k (length words)) words)) = true
  /\ map (case_word U)
       (combine (seq k (length words))
          (map (case_word U) (combine (seq k (length words)) words)))
     = map (case_word U) (combine (seq k (length words)) words).
Proof.
  revert k. induction words as [| w rest IH]; intros k H; [auto |].
  simpl in H. apply andb_true_iff in H. destruct H as [Hw Hrest].
  destruct (IH (S k) Hrest) as [IH1 IH2].
  cbn [length seq combine map forallb]. split.
  - rewrite (case_word_ascii_word U k w Hw), IH1. reflexivity.
  - rewrite (case_word_idem U k w Hw). f_equal. exact IH2.
Qed.

Lemma title_case_unfold (U : Unicode) (title : str) :
  title_case U title
  = join (u " ") (map (case_word U) (enumerate (split title))).
Proof. reflexivity. Qed.

(** X19. Title casing is idempotent on ASCII titles: a title that went
    through the step is left as it is by a second pass. *)
Theorem title_case_idempotent (U : Unicode) (title : str) :
  isascii title = true ->
  title_case U (title_case U title) = title_case U title.
Proof.
  intros Ha.
  pose proof (split_from_ascii_words [] title eq_refl eq_refl Ha) as Hwords.
  fold (split title) in Hwords.
  destruct (case_words_from U 0 (split title) Hwords) as [Hcased Hidem].
  rewrite (title_case_unfold U (title_case U title)).
  rewrite (title_case_unfold U title).
  unfold enumerate in *. rewrite (split_join_words _ Hcased).
  rewrite length_map, length_combine, length_seq, Nat.min_id.
  rewrite Hidem. reflexivity.
Qed.

Lemma title_case_idempotent_witness :
  isascii (u "  the RISE of   the machines ") = true
  /\ title_case unicode_fragment (u "  the RISE of   the machines ")
     = u "The Rise of the Machines"
  /\ title_case unicode_fragment
       (title_case unicode_fragment (u "  the RISE of   the machines "))
     = title_case unicode_fragment (u "  the RISE of   the machines ").
Proof.
  split; [reflexivity |]. split; [reflexivity |].
  apply (title_case_idempotent unicode_fragment). reflexivity.
Defined.

(** ** Order and independence *)

(** X20. The summaries are collected in the order in which the futures
    complete, not in the order of the folder listing, and the list of
    papers of a completed run shows them in that order. *)
Theorem summaries_are_collected_in_completion_order
    (W : World) (extra : nat) (pdf_folder : str) (names : list str) :
  (forall futures, Permutation (as_completed W futures) futures) ->
  find_pdf_folder W = Return pdf_folder ->
  listdir W pdf_folder = Return names ->
  exists futures run,
    Forall2 (fun path future => process_pdf W (3 + extra) path = Some future)
      (map (path_join pdf_folder) (filter is_pdf names)) futures
    /\ main W (3 + extra) = Some run
    /\ collected run = successes (as_completed W futures)
    /\ (state run = Completed ->
        exists review,
          output_file run
          = Some (output_name W,
                  (review ++ [NEWLINE; NEWLINE]) ++ paper_list_heading
                    ++ concat (map (paper_list_entry (unicode W))
                                 (successes (as_completed W futures))))).
Proof.
  intros Hperm Hfind Hlist.
  destruct (main_cases W extra) as [run [Hmain Hcases]].
  destruct Hcases as [[[e He] _] | [folder' [Hfind' Hcases]]];
    [congruence |].
  assert (folder' = pdf_folder) by congruence. subst folder'.
  destruct Hcases as [[[e He] _] | [names' [futures [Hlist' [Hall Hcases]]]]];
    [congruence |].
  assert (names' = names) by congruence. subst names'.
  exists futures, run. split; [exact Hall |]. split; [exact Hmain |].
  destruct Hcases as [[Hpdf ->] | [Hpdf Hcases]].
  { rewrite Hpdf in Hall. inversion Hall. subst. simpl.
    split; [| discriminate].
    pose proof (Hperm []) as Hnil. apply Permutation_sym in Hnil.
    apply Permutation_nil in Hnil. rewrite Hnil. reflexivity. }
  destruct Hcases as [[Hnone ->] | [Hsome [Hcoll Hcases]]].
  { simpl. split; [auto | discriminate]. }
  split; [exact Hcoll |]. intros Hstate. rewrite <- Hcoll.
  destruct Hcases
    as [[_ [Hfail _]] | [review [events [written [_ [Hw [Hout Hst]]]]]]];
    [congruence |].
  exists review. subst written. rewrite Hout, Hstate in *.
  destruct (snd (write_output W (u "literature_review_" ++ now W ++ u ".md")
                   review (create_paper_list (unicode W) (collected run))))
    as [done |] eqn:Hsnd; [| discriminate].
  rewrite (proj1 (write_output_cases W _ _ _) done Hsnd).
  rewrite create_paper_list_entries. reflexivity.
Qed.

Lemma summaries_are_collected_in_completion_order_witness :
  (forall futures,
     Permutation (as_completed (sample_world four_files is_corrupt false)
                    futures) futures)
  /\ find_pdf_folder (sample_world four_files is_corrupt false)
     = Return (u "/app/PDF")
  /\ listdir (sample_world four_files is_corrupt false) (u "/app/PDF")
     = Return four_files
  /\ exists futures run,
       main (sample_world four_files is_corrupt false) 3 = Some run
       /\ collected run
          = successes (as_completed (sample_world four_files is_corrupt false)
                         futures).
Proof.
  assert (Hperm : forall futures,
             Permutation (as_completed (sample_world four_files is_corrupt false)
                            futures) futures).
  { intros futures. symmetry. apply Permutation_rev. }
  split; [exact Hperm |]. split; [reflexivity |]. split; [reflexivity |].
  destruct (summaries_are_collected_in_completion_order
              (sample_world four_files is_corrupt false) 0
              (u "/app/PDF") four_files Hperm eq_refl eq_refl)
    as [futures [run [_ [Hmain [Hcoll _]]]]].
  exists futures, run. split; [exact Hmain | exact Hcoll].
Defined.

(** X21. The citation depends on the title, the authors and the year
    only: the eight other fields of a summary have no effect on it, nor on
    its line in the list of papers. *)
Theorem citation_reads_three_fields (U : Unicode) (summary : PaperSummary) :
  create_apa_citation U summary
  = create_apa_citation U
      (paper (title summary) (authors summary) (year summary))
  /\ paper_list_entry U summary
     = paper_list_entry U
         (paper (title summary) (authors summary) (year summary)).
Proof. split; reflexivity. Qed.
